(** * Bitcoinfx-ios: the whale tracker of [Block_alert.py]

    A shallow embedding of [DOJAddressMonitor] and [BitcoinWhaleTracker]
    (src/Block_alert.py) and the properties of the block cursor, the
    transaction classifier and the DOJ address registry.

    Conventions of the embedding.
    - A raw transaction is the value [response.json()] hands to the code: a
      JSON value.  JSON numbers are integers (the chain-data provider reports
      whole satoshi and epoch seconds); Python's [bool] is an [int].
    - The [float] a record holds, the result of one true division of two
      ints, is written as the exact rational quotient (type [Q]); where the
      code goes on computing with it or formats it with two decimals (the
      statistics, the tweet), it is the binary64 value nearest to that
      quotient ([to_float]) and the arithmetic is that of IEEE 754.
    - A raised exception is a value [Raise e]; [try/except] is a match on it.
    - Network, clock, regular expressions and the disk are the fields of a
      [World] record that the functions read. *)

From stdpp Require Import gmap strings list fin_maps pretty.
From Stdlib Require Import QArith Ascii.
From Stdlib.Floats Require Import SpecFloat.

Set Warnings "-register-all,-clear-no-such-hyp".
Open Scope string_scope.
Open Scope Z_scope.

(** ** Python values and exceptions *)

(** What [response.json()] returns. The numbers are the integers: a number
    written with a fraction or an exponent, which Python reads as a [float],
    is not a value of this type, and the properties below speak of
    transactions without such numbers. *)
Inductive json : Type :=
  | JNull
  | JBool (b : bool)
  | JInt (z : Z)
  | JStr (s : string)
  | JList (l : list json)
  | JObj (m : gmap string json).

Inductive exn : Type :=
  | KeyError | IndexError | TypeError | AttributeError | ValueError | OSError.

Inductive result (A : Type) : Type :=
  | Ok (a : A)
  | Raise (e : exn).
Arguments Ok {A} a.
Arguments Raise {A} e.

#[global] Instance result_ret : MRet result := @Ok.
#[global] Instance result_bind : MBind result := λ A B f r,
  match r with Ok a => f a | Raise e => Raise e end.

(** [d.get(k, dflt)]: only a dict has the method. *)
Definition py_get (d : json) (k : string) (dflt : json) : result json :=
  match d with
  | JObj m => Ok (default dflt (m !! k))
  | _ => Raise AttributeError
  end.

(** [d[k]] with a string key [k]. *)
Definition py_item (d : json) (k : string) : result json :=
  match d with
  | JObj m => match m !! k with Some v => Ok v | None => Raise KeyError end
  | _ => Raise TypeError
  end.

(** [x[0]]. *)
Definition py_index0 (x : json) : result json :=
  match x with
  | JList [] => Raise IndexError
  | JList (a :: _) => Ok a
  | JStr EmptyString => Raise IndexError
  | JStr (String c _) => Ok (JStr (String c EmptyString))
  | JObj _ => Raise KeyError
  | _ => Raise TypeError
  end.

Fixpoint chars (s : string) : list json :=
  match s with
  | EmptyString => []
  | String c s' => JStr (String c EmptyString) :: chars s'
  end.

(** [iter(x)]: the items a [for] loop or a generator visits. *)
Definition py_iter (x : json) : result (list json) :=
  match x with
  | JList l => Ok l
  | JObj m => Ok (JStr <$> (map_to_list m).*1)
  | JStr s => Ok (chars s)
  | _ => Raise TypeError
  end.

(** [acc + v] for an [int] accumulator. *)
Definition py_add (acc : Z) (v : json) : result Z :=
  match v with
  | JInt z => Ok (acc + z)
  | JBool b => Ok (acc + (if b then 1 else 0))
  | _ => Raise TypeError
  end.

(** [sum(f(it) for it in items)]. *)
Definition py_sum (f : json → result json) (items : list json) : result Z :=
  foldl (λ acc it, a ← acc; v ← f it; py_add a v) (Ok 0) items.

(** [a / b] on two ints: Python's true division. *)
Definition true_div (a b : Z) : Q := (inject_Z a / inject_Z b)%Q.

(** [v in l] for a list [l] of strings. *)
Definition py_in (v : json) (l : list string) : bool :=
  match v with
  | JStr s => bool_decide (s ∈ l)
  | _ => false
  end.

(** [s.upper()] on ASCII letters. *)
Definition upper_ascii (c : ascii) : ascii :=
  let n := nat_of_ascii c in
  if (97 <=? n)%nat && (n <=? 122)%nat then ascii_of_nat (n - 32) else c.

Fixpoint upper (s : string) : string :=
  match s with
  | EmptyString => EmptyString
  | String c s' => String (upper_ascii c) (upper s')
  end.

(** ** Number formatting: [f"{x:.8f}"] *)

(** Nearest integer, ties to even. *)
Definition round_half_even (q : Q) : Z :=
  let n := Qnum q in
  let d := Zpos (Qden q) in
  let fl := n / d in
  let r2 := 2 * (n mod d) in
  if r2 <? d then fl
  else if d <? r2 then fl + 1
  else if Z.even fl then fl else fl + 1.

Fixpoint zeros (n : nat) : string :=
  match n with
  | O => ""
  | S n' => "0" +:+ zeros n'
  end.

Definition pad_left (width : nat) (s : string) : string :=
  zeros (width - String.length s) +:+ s.

Definition format_8f (q : Q) : string :=
  let n := Z.abs (round_half_even (q * inject_Z 100000000)%Q) in
  (if Qle_bool 0 q then "" else "-")
  +:+ pretty (n / 100000000) +:+ "." +:+ pad_left 8 (pretty (n mod 100000000)).

(** ** The outside world *)

Record World : Type := {
  (** [datetime.fromtimestamp(t).strftime('%Y-%m-%d %H:%M:%S')], local time;
      [None] when [t] is out of the platform's range *)
  strftime_local : Z → option string;
  (** [datetime.now().isoformat()] *)
  now_iso : string;
  (** the text of the [p], [div] and [td] blocks of the page at a url;
      [None] when the request or the parse raises *)
  page_blocks : string → option (list string);
  (** HTTP status of a GET; [None] when the request raises *)
  http_status : string → option Z;
  (** [re.findall(pattern, text)] *)
  re_findall : string → string → list string;
  (** [re.search(pattern, text, re.IGNORECASE)], then [group(1)] *)
  re_search_group1 : string → string → option string;
  (** whether writing the history file succeeds *)
  disk_writable : bool
}.

(** ** DOJAddressMonitor *)

Record case_info : Type := {
  case_number : option string;
  filing_date : option string;
  district : option string;
  amount : option string
}.

Record addr_info : Type := {
  address : string;
  source_url : string;
  discovery_date : string;
  case : case_info
}.

Record history : Type := {
  last_update : option string;
  addresses : gmap string addr_info
}.

Record DOJAddressMonitor : Type := {
  address_history : history
}.

Definition address_pattern : string :=
  "bc1[a-zA-Z0-9]{8,87}|[13][a-km-zA-HJ-NP-Z1-9]{25,34}".

(** [self.sources]: source type, url, pattern. *)
Definition sources : list (string * (string * string)) :=
  [ ("forfeiture",
     ("https://www.justice.gov/criminal-mlars/equitable-sharing-program",
      address_pattern));
    ("usao",
     ("https://www.justice.gov/usao/pressreleases", address_pattern)) ].

(** [load_history]: the history when no file exists yet. *)
Definition empty_history : history :=
  {| last_update := None; addresses := ∅ |}.

Definition verify_bitcoin_address (w : World) (a : string) : bool :=
  match http_status w ("https://blockchain.info/address/" +:+ a) with
  | Some code => bool_decide (code = 200)
  | None => false
  end.

Definition case_number_pattern : string :=
  "Case\s+(?:No\.?|Number:?)\s*([\w-]+)".
Definition filing_date_pattern : string :=
  "Filed:?\s*(\w+\s+\d{1,2},\s*\d{4})".
Definition district_pattern : string :=
  "(?:in\s+the\s+)?(\w+\s+District\s+(?:Court\s+)?of\s+[\w\s]+)".
Definition amount_pattern : string :=
  "(?:BTC|Bitcoin)\s*(?:worth)?\s*(?:approximately)?\s*[$]?([\d,]+(?:\.\d{2})?)".

(** [info if info else None]: a dict with no key is falsy. *)
Definition extract_case_info (w : World) (text : string) : option case_info :=
  let info :=
    {| case_number := re_search_group1 w case_number_pattern text;
       filing_date := re_search_group1 w filing_date_pattern text;
       district := re_search_group1 w district_pattern text;
       amount := re_search_group1 w amount_pattern text |} in
  match case_number info, filing_date info, district info, amount info with
  | None, None, None, None => None
  | _, _, _, _ => Some info
  end.

(** The inner loop of [scan_doj_page] over the addresses of one block. *)
Definition scan_block (w : World) (url pattern text : string) : list addr_info :=
  foldl (λ found a,
           if verify_bitcoin_address w a then
             match extract_case_info w text with
             | Some ci =>
                 (found ++ [ {| address := a; source_url := url;
                                discovery_date := now_iso w;
                                case := ci |} ])%list
             | None => found
             end
           else found)
        [] (re_findall w pattern text).

Definition scan_doj_page (w : World) (url pattern : string) : list addr_info :=
  match page_blocks w url with
  | Some blocks =>
      foldl (λ found text, (found ++ scan_block w url pattern text)%list)
            [] blocks
  | None => []
  end.

(** The body of the history loop of [update_addresses]. *)
Definition record_if_absent (h : history) (info : addr_info) : history :=
  match addresses h !! address info with
  | Some _ => h
  | None => {| last_update := last_update h;
               addresses := <[address info := info]> (addresses h) |}
  end.

(** [update_addresses]: the monitor after the call and what the call
    returns; [save_history] raises when the file cannot be written, after the
    history in memory has been updated. *)
Definition update_addresses (w : World) (self : DOJAddressMonitor)
  : DOJAddressMonitor * result (list (string * list addr_info)) :=
  let all_new_addresses :=
    (λ src : string * (string * string),
       (src.1, scan_doj_page w src.2.1 src.2.2)) <$> sources in
  let h := foldl (λ h cat, foldl record_if_absent h cat.2)
                 (address_history self) all_new_addresses in
  let h' := {| last_update := Some (now_iso w); addresses := addresses h |} in
  ({| address_history := h' |},
   if disk_writable w then Ok all_new_addresses else Raise OSError).

(** ** BitcoinWhaleTracker *)

Record entity : Type := {
  etype : string;
  eaddresses : list string
}.

Record BitcoinWhaleTracker : Type := {
  min_btc : Q;
  processed_blocks : gset string;
  last_block_height : option Z;
  doj_monitor : DOJAddressMonitor;
  (** [known_addresses['doj']['addresses']], the one entry written after
      construction *)
  doj_addresses : list string
}.

Definition satoshi_to_btc : Z := 100000000.

(** [self.known_addresses], in the order of the dict literal. *)
Definition known_addresses (self : BitcoinWhaleTracker) : list (string * entity) :=
  [ ("binance", {| etype := "exchange"; eaddresses :=
      [ "3FaA4dJuuvJFyUHbqHLkZKJcuDPugvG3zE";
        "1NDyJtNTjmwk5xPNhjgAMu4HDHigtobu1s";
        "34xp4vRoCGJym3xR7yCVPFHoCNxv4Twseo";
        "1LQv8aKtQoiY5M5zkaG8RWL7LMwNzNsLfb";
        "1AC4fMwgY8j9onSbXEWeH6Zan8QGMSdmtA" ] |});
    ("coinbase", {| etype := "exchange"; eaddresses :=
      [ "3FzScn724foqFRWvL1kCZwitQvcxrnSQ4K";
        "3Kzh9qAqVWQhEsfQz7zEQL1EuSx5tyNLNS";
        "1CWYTCvwKfH5cWnX3VcAykgTsmjsuB3wXe";
        "1FxkfJQLJTXpW6QmxGT6hEo5DtBrnFpM3r";
        "1GR9qNz7zgtaW5HwwVpEJWMnGWhsbsieCG" ] |});
    ("grayscale", {| etype := "investment"; eaddresses :=
      [ "bc1qe7nps5yv7ruc884zscwrk9g2mxvqh7tkxfxwny";
        "bc1qkz7u6l5c8wqz8nc5yxkls2j8u4y2hkdzlgfnl4" ] |});
    ("microstrategy", {| etype := "corporate"; eaddresses :=
      [ "bc1qazcm763858nkj2dj986etajv6wquslv8uxwczt";
        "bc1qxy2kgdygjrsqtzq2n0yrf2493p83kkfjhx0wlh" ] |});
    ("blockfi", {| etype := "lending"; eaddresses :=
      [ "bc1q7kyrfmx49qa7n6g8mvlh36d4w9zf4lkwfg4j5q";
        "bc1qd73dxk2qfs2x5wv2sesvqrzgx7t5tqt4y5vpym" ] |});
    ("celsius", {| etype := "lending"; eaddresses :=
      [ "bc1q06ymtp6eq27mlz3ppv8z7esc8vq3v4nsjx9eng";
        "bc1qcex3e38gqh6qnzpn9jth5drgfyh5k9sjzq3rkm" ] |});
    ("kraken", {| etype := "exchange"; eaddresses :=
      [ "3FupZp77ySr7jwoLYEJ9mwzJpvoNBXsBnE";
        "3H5JTt42K7RmZtromfTSefcMEFMMe18pMD";
        "3AfP9N7KNq2pYXiGQdgNJy8SD2Mo7pQKUR";
        "3E1jkR1PJ8hFUqCkDjimwPoF2bZVrkqnpv" ] |});
    ("bitfinex", {| etype := "exchange"; eaddresses :=
      [ "3D2oetdNuZUqQHPJmcMDDHYoqkyNVsFk9r";
        "3JZq4atUahhuA9rLhXLMhhTo133J9rF97j";
        "3QW95MafxER9W7kWDcosQNdLk4Z36TYJZL" ] |});
    ("huobi", {| etype := "exchange"; eaddresses :=
      [ "3M219KR5vEneNb47ewrPfWyb5jQ2DjxRP6";
        "38WUPqGLXphpD1DwkMR8koGfd5UQfRnmrk";
        "1HckjUpRGcrrRAtFaaCAUaGjsPx9oYmLaZ" ] |});
    ("okex", {| etype := "exchange"; eaddresses :=
      [ "3LQUu4v9z6KNch71j7kbj8GPeAGUo1FW6a";
        "3LCGsSmfr24demGvriN4e3ft8wEcDuHFqh";
        "3FupZp77ySr7jwoLYEJ9mwzJpvoNBXsBnE" ] |});
    ("gemini", {| etype := "exchange"; eaddresses :=
      [ "3P3QsMVK89JBNqZQv5zMAKG8FK3kJM4rjt";
        "393HLwqnkrJMxYQTHjWBJPAKC3UG6k6FwB";
        "3AAzK4Xbu8PTM8AD7gw2XaMZavL6xoKWHQ" ] |});
    ("bitstamp", {| etype := "exchange"; eaddresses :=
      [ "3P3QsMVK89JBNqZQv5zMAKG8FK3kJM4rjt";
        "3D2oetdNuZUqQHPJmcMDDHYoqkyNVsFk9r";
        "3DbAZpqKhUBu4rqafHzj7hWquoBL6gFBvj" ] |});
    ("bittrex", {| etype := "exchange"; eaddresses :=
      [ "3KJrsjfg1dD6CrsTeHdM5SSk3PhXjNwhA7";
        "3KJrsjfg1dD6CrsTeHdM5SSk3PhXjNwhA7";
        "3QW95MafxER9W7kWDcosQNdLk4Z36TYJZL" ] |});
    ("kucoin", {| etype := "exchange"; eaddresses :=
      [ "3M219KR5vEneNb47ewrPfWyb5jQ2DjxRP6";
        "3H5JTt42K7RmZtromfTSefcMEFMMe18pMD";
        "3AfP9N7KNq2pYXiGQdgNJy8SD2Mo7pQKUR" ] |});
    ("gate_io", {| etype := "exchange"; eaddresses :=
      [ "3FupZp77ySr7jwoLYEJ9mwzJpvoNBXsBnE";
        "38WUPqGLXphpD1DwkMR8koGfd5UQfRnmrk" ] |});
    ("ftx", {| etype := "exchange"; eaddresses :=
      [ "3LQUu4v9z6KNch71j7kbj8GPeAGUo1FW6a";
        "3E1jkR1PJ8hFUqCkDjimwPoF2bZVrkqnpv" ] |});
    ("bybit", {| etype := "exchange"; eaddresses :=
      [ "3JZq4atUahhuA9rLhXLMhhTo133J9rF97j";
        "3QW95MafxER9W7kWDcosQNdLk4Z36TYJZL" ] |});
    ("cryptocom", {| etype := "exchange"; eaddresses :=
      [ "3P3QsMVK89JBNqZQv5zMAKG8FK3kJM4rjt";
        "3AAzK4Xbu8PTM8AD7gw2XaMZavL6xoKWHQ" ] |});
    ("doj", {| etype := "government"; eaddresses := doj_addresses self |}) ].

(** [self.known_addresses[name]['addresses']], for the keys the code asks
    for ('binance', 'coinbase' and 'doj'), which the dict always has. *)
Definition known (self : BitcoinWhaleTracker) (name : string) : list string :=
  match list_find (λ e, e.1 = name) (known_addresses self) with
  | Some (_, e) => eaddresses e.2
  | None => []
  end.

(** The loop shared by [get_entity_name] and [get_address_label]: the first
    entity, in dict order, that lists the address. *)
Definition find_entity (self : BitcoinWhaleTracker) (a : string)
  : option (string * entity) :=
  snd <$> list_find (λ e, a ∈ eaddresses e.2) (known_addresses self).

Definition get_entity_name (self : BitcoinWhaleTracker) (a : string) : string :=
  match find_entity self a with
  | Some (name, _) => upper name
  | None => "UNKNOWN"
  end.

(** One pass of [monitor_loop] in [start_doj_monitor]; an exception of
    [update_addresses] is logged and the registry is left as it was.
    [list(set(l))] keeps one copy of each address, in an order Python does
    not specify. *)
Definition monitor_loop (w : World) (self : BitcoinWhaleTracker)
  : BitcoinWhaleTracker :=
  let '(monitor, r) := update_addresses w (doj_monitor self) in
  let doj :=
    match r with
    | Ok new_addresses =>
        let new_doj :=
          mjoin ((λ cat : string * list addr_info, address <$> cat.2)
                   <$> new_addresses) in
        elements (list_to_set (C := gset string)
                    (doj_addresses self ++ new_doj)%list)
    | Raise _ => doj_addresses self
    end in
  {| min_btc := min_btc self;
     processed_blocks := processed_blocks self;
     last_block_height := last_block_height self;
     doj_monitor := monitor;
     doj_addresses := doj |}.

(** [get_latest_block]; [block_data] is the provider's answer
    [(height, hash)], [None] when the request raises. *)
Definition get_latest_block (self : BitcoinWhaleTracker)
    (block_data : option (Z * string))
  : BitcoinWhaleTracker * option string :=
  match block_data with
  | None => (self, None)
  | Some (current_height, current_hash) =>
      match last_block_height self with
      | None =>
          ({| min_btc := min_btc self;
              processed_blocks := processed_blocks self;
              last_block_height := Some current_height;
              doj_monitor := doj_monitor self;
              doj_addresses := doj_addresses self |},
           Some current_hash)
      | Some last =>
          if bool_decide (current_hash ∈ processed_blocks self)
          then (self, None)
          else if bool_decide (last < current_height) then
            let blocks :=
              if bool_decide (1000 < size (processed_blocks self))%nat
              then ∅ else processed_blocks self in
            ({| min_btc := min_btc self;
                processed_blocks := blocks ∪ {[ current_hash ]};
                last_block_height := Some current_height;
                doj_monitor := doj_monitor self;
                doj_addresses := doj_addresses self |},
             Some current_hash)
          else (self, None)
      end
  end.

(** *** Transactions *)

Inductive pyval : Type :=
  | PyFloat (q : Q)
  | PyStr (s : string).

Record whale_tx : Type := {
  transaction_hash : json;
  timestamp : string;
  btc_volume : pyval;
  fee_btc : pyval;
  sender : json;
  receiver : json;
  tx_type : string
}.

(** [inp.get('prev_out', {}).get('value', 0)] *)
Definition input_value (inp : json) : result json :=
  prev_out ← py_get inp "prev_out" (JObj ∅);
  py_get prev_out "value" (JInt 0).

(** [out.get('value', 0)] *)
Definition output_value (out : json) : result json :=
  py_get out "value" (JInt 0).

(** [sum(... for inp in tx.get('inputs', []))] *)
Definition total_input (tx : json) : result Z :=
  inputs ← py_get tx "inputs" (JList []);
  items ← py_iter inputs;
  py_sum input_value items.

(** [sum(... for out in tx.get('out', []))] *)
Definition total_output (tx : json) : result Z :=
  outs ← py_get tx "out" (JList []);
  items ← py_iter outs;
  py_sum output_value items.

(** [tx['inputs'][0].get('prev_out', {}).get('addr', 'Unknown')] *)
Definition primary_sender (tx : json) : result json :=
  inputs ← py_item tx "inputs";
  inp ← py_index0 inputs;
  prev_out ← py_get inp "prev_out" (JObj ∅);
  py_get prev_out "addr" (JStr "Unknown").

(** [tx['out'][0].get('addr', 'Unknown')] *)
Definition primary_receiver (tx : json) : result json :=
  outs ← py_item tx "out";
  out ← py_index0 outs;
  py_get out "addr" (JStr "Unknown").

(** [datetime.fromtimestamp(tx.get('time', 0)).strftime(...)] *)
Definition tx_timestamp (w : World) (tx : json) : result string :=
  t ← py_get tx "time" (JInt 0);
  secs ← match t with
         | JInt z => Ok z
         | JBool b => Ok (if b then 1 else 0)
         | _ => Raise TypeError
         end;
  match strftime_local w secs with
  | Some s => Ok s
  | None => Raise ValueError
  end.

(** The body of the [try] of [process_transaction]; [Ok None] is the end of
    the function reached without a [return]. *)
Definition process_transaction_try (w : World) (self : BitcoinWhaleTracker)
    (tx : json) : result (option whale_tx) :=
  total_input ← total_input tx;
  total_output ← total_output tx;
  let btc_volume := true_div total_input satoshi_to_btc in
  if Qle_bool (min_btc self) btc_volume then
    sender ← primary_sender tx;
    receiver ← primary_receiver tx;
    let fee_btc := true_div (total_input - total_output) satoshi_to_btc in
    let tx_type :=
      if py_in sender (known self "binance")
         || py_in sender (known self "coinbase")
      then "witdrawal"
      else if py_in receiver (known self "binance")
              || py_in receiver (known self "coinbase")
      then "deposit"
      else if py_in sender (known self "doj")
              || py_in receiver (known self "doj")
      then "doj transfer"
      else "alert #bitcoin" in
    hash ← py_get tx "hash" (JStr "Unknown");
    time ← tx_timestamp w tx;
    Ok (Some {| transaction_hash := hash;
                timestamp := time;
                btc_volume := PyFloat btc_volume;
                fee_btc := PyFloat fee_btc;
                sender := sender;
                receiver := receiver;
                tx_type := tx_type |})
  else Ok None.

(** [process_transaction]: [except Exception] logs and returns [None]. *)
Definition process_transaction (w : World) (self : BitcoinWhaleTracker)
    (tx : json) : option whale_tx :=
  match process_transaction_try w self tx with
  | Ok r => r
  | Raise _ => None
  end.

(** The body of the [for tx in transactions] loop of
    [track_whale_transactions], up to the construction of [whale_tx]
    (printing and the address statistics that follow are not modelled);
    [Ok None] is a transaction below the threshold. *)
Definition track_whale_tx (w : World) (self : BitcoinWhaleTracker)
    (tx : json) : result (option whale_tx) :=
  total_input ← total_input tx;
  total_output ← total_output tx;
  let btc_volume := true_div total_input satoshi_to_btc in
  if Qle_bool (min_btc self) btc_volume then
    sender ← primary_sender tx;
    receiver ← primary_receiver tx;
    let fee_btc := true_div (total_input - total_output) satoshi_to_btc in
    let tx_type :=
      if py_in sender (known self "binance")
         || py_in sender (known self "coinbase")
      then "WITHDRAWAL"
      else if py_in receiver (known self "binance")
              || py_in receiver (known self "coinbase")
      then "DEPOSIT"
      else if py_in sender (known self "doj")
              || py_in receiver (known self "doj")
      then "DOJ TRANSFER"
      else "UNKNOWN" in
    hash ← py_get tx "hash" (JStr "Unknown");
    time ← tx_timestamp w tx;
    Ok (Some {| transaction_hash := hash;
                timestamp := time;
                btc_volume := PyStr (format_8f btc_volume);
                fee_btc := PyStr (format_8f fee_btc);
                sender := sender;
                receiver := receiver;
                tx_type := tx_type |})
  else Ok None.

(** [BitcoinWhaleTracker(min_btc)], with the history [load_history] found. *)
Definition init (min : Q) (h : history) : BitcoinWhaleTracker :=
  {| min_btc := min;
     processed_blocks := ∅;
     last_block_height := None;
     doj_monitor := {| address_history := h |};
     doj_addresses := [] |}.

(** ** A concrete world and concrete transactions *)

Module Sample.

(** Days since 1970-01-01 to (year, month, day), proleptic Gregorian. *)
Definition civil_from_days (days : Z) : Z * Z * Z :=
  let z := days + 719468 in
  let era := z / 146097 in
  let doe := z - era * 146097 in
  let yoe := (doe - doe / 1460 + doe / 36524 - doe / 146096) / 365 in
  let doy := doe - (365 * yoe + yoe / 4 - yoe / 100) in
  let mp := (5 * doy + 2) / 153 in
  let d := doy - (153 * mp + 2) / 5 + 1 in
  let m := if mp <? 10 then mp + 3 else mp - 9 in
  (yoe + era * 400 + (if m <=? 2 then 1 else 0), m, d).

Definition digits (width : nat) (n : Z) : string := pad_left width (pretty n).

(** The clock of a machine whose local time is UTC. *)
Definition strftime_utc (t : Z) : option string :=
  let '(y, m, d) := civil_from_days (t / 86400) in
  let s := t mod 86400 in
  if (1 <=? y) && (y <=? 9999) then
    Some (digits 4 y +:+ "-" +:+ digits 2 m +:+ "-" +:+ digits 2 d +:+ " "
          +:+ digits 2 (s / 3600) +:+ ":" +:+ digits 2 (s mod 3600 / 60)
          +:+ ":" +:+ digits 2 (s mod 60))
  else None.

Definition seized : string := "1FfmbHfnpaZjKFvyi1okTjJJusN455paPH".
Definition binance_hot : string := "3FaA4dJuuvJFyUHbqHLkZKJcuDPugvG3zE".
Definition kraken_hot : string := "3FupZp77ySr7jwoLYEJ9mwzJpvoNBXsBnE".

Definition press_release : string :=
  "Case No. 21-cr-399 the forfeiture of " +:+ seized.
Definition bare_mention : string := "donations accepted at " +:+ seized.

Definition forfeiture_url : string :=
  "https://www.justice.gov/criminal-mlars/equitable-sharing-program".

(** A world whose forfeiture page consists of the blocks [blocks], in which
    the one address that occurs is [seized], and whose only extractable field
    is the case number of [press_release]. *)
Definition world (blocks : list string) (writable : bool) : World :=
  {| strftime_local := strftime_utc;
     now_iso := "2024-05-01T12:00:00";
     page_blocks := λ url,
       if bool_decide (url = forfeiture_url) then Some blocks else Some [];
     http_status := λ _, Some 200;
     re_findall := λ _ text,
       if bool_decide (text = press_release) || bool_decide (text = bare_mention)
       then [seized] else [];
     re_search_group1 := λ pattern text,
       if bool_decide (pattern = case_number_pattern)
          && bool_decide (text = press_release)
       then Some "21-cr-399" else None;
     disk_writable := writable |}.

Definition obj (l : list (string * json)) : json := JObj (list_to_map l).

(** A transaction with one input and one output. *)
Definition transfer (from to : string) (value_in value_out : Z) : json :=
  obj [ ("hash", JStr "a1b2c3");
        ("time", JInt 1700000000);
        ("inputs", JList [ obj [ ("prev_out",
                     obj [ ("addr", JStr from); ("value", JInt value_in) ]) ] ]);
        ("out", JList [ obj [ ("addr", JStr to); ("value", JInt value_out) ] ]) ].

(** The same transaction when the provider left the output list out. *)
Definition no_outputs (from : string) (value_in : Z) : json :=
  obj [ ("hash", JStr "a1b2c3");
        ("time", JInt 1700000000);
        ("inputs", JList [ obj [ ("prev_out",
                     obj [ ("addr", JStr from); ("value", JInt value_in) ]) ] ]) ].

Definition tracker : BitcoinWhaleTracker := init 500 empty_history.

(** Two records of [seized], from two cases. *)
Definition first_case : addr_info :=
  {| address := seized; source_url := forfeiture_url;
     discovery_date := "2024-01-15T08:30:00";
     case := {| case_number := Some "13-cr-222"; filing_date := None;
                district := None; amount := Some "144,336" |} |}.

Definition later_case : addr_info :=
  {| address := seized; source_url := forfeiture_url;
     discovery_date := "2024-05-01T12:00:00";
     case := {| case_number := Some "21-cr-399"; filing_date := None;
                district := None; amount := None |} |}.

(** A tracker started with a history file that already has [seized]. *)
Definition restarted : BitcoinWhaleTracker :=
  init 500 {| last_update := Some "2024-01-15T08:30:00";
              addresses := {[ seized := first_case ]} |}.

(** The tracker once the monitor has read a page with [press_release]. *)
Definition tracker_after_scan : BitcoinWhaleTracker :=
  monitor_loop (world [press_release] true) tracker.

End Sample.

(** ** Polling *)

(** Successive calls of [get_latest_block] by the [while True] loop, one per
    answer of the provider: the tracker at the end and what each call
    returned. *)
Fixpoint poll (self : BitcoinWhaleTracker) (answers : list (Z * string))
  : BitcoinWhaleTracker * list (option string) :=
  match answers with
  | [] => (self, [])
  | block_data :: rest =>
      let '(self1, r) := get_latest_block self (Some block_data) in
      let '(self2, rs) := poll self1 rest in
      (self2, r :: rs)
  end.

(** Heights that grow strictly, starting above [base]. *)
Fixpoint increasing (base : Z) (heights : list Z) : Prop :=
  match heights with
  | [] => True
  | h :: rest => base < h ∧ increasing h rest
  end.

(** Block [i] of a chain whose block at height [i] has the hash [pretty i]. *)
Definition chain (start : nat) (n : nat) : list (Z * string) :=
  (λ i : nat, (Z.of_nat i, pretty i)) <$> seq start n.

(** ** Vocabulary of the specification *)

(** The four transaction types. *)
Inductive TxType : Type := WITHDRAWAL | DEPOSIT | DOJ_TRANSFER | UNKNOWN.

(** How [track_whale_transactions] and [process_transaction] write them. *)
Definition loop_label (t : TxType) : string :=
  match t with
  | WITHDRAWAL => "WITHDRAWAL"
  | DEPOSIT => "DEPOSIT"
  | DOJ_TRANSFER => "DOJ TRANSFER"
  | UNKNOWN => "UNKNOWN"
  end.

Definition process_label (t : TxType) : string :=
  match t with
  | WITHDRAWAL => "witdrawal"
  | DEPOSIT => "deposit"
  | DOJ_TRANSFER => "doj transfer"
  | UNKNOWN => "alert #bitcoin"
  end.

(** An address resolves to an entity of class [cls]: the registry lists it
    under an entity of that type. *)
Definition resolves_to (self : BitcoinWhaleTracker) (v : json) (cls : string)
  : Prop :=
  ∃ a name e, v = JStr a ∧ find_entity self a = Some (name, e) ∧ etype e = cls.

(** An address listed under Binance or Coinbase, the two exchanges the
    classification looks at. *)
Definition binance_or_coinbase (self : BitcoinWhaleTracker) (v : json) : Prop :=
  ∃ a, v = JStr a ∧ (a ∈ known self "binance" ∨ a ∈ known self "coinbase").

(** An address of the government bucket. *)
Definition government (self : BitcoinWhaleTracker) (v : json) : Prop :=
  ∃ a, v = JStr a ∧ a ∈ doj_addresses self.

(** The rule of the classification that applies to a sender and a receiver:
    the first one that matches, in the order withdrawal, deposit, government
    transfer, unknown. *)
Definition first_match (self : BitcoinWhaleTracker) (s rcv : json) (t : TxType)
  : Prop :=
  match t with
  | WITHDRAWAL => binance_or_coinbase self s
  | DEPOSIT => ¬ binance_or_coinbase self s ∧ binance_or_coinbase self rcv
  | DOJ_TRANSFER =>
      ¬ binance_or_coinbase self s ∧ ¬ binance_or_coinbase self rcv
      ∧ (government self s ∨ government self rcv)
  | UNKNOWN =>
      ¬ binance_or_coinbase self s ∧ ¬ binance_or_coinbase self rcv
      ∧ ¬ (government self s ∨ government self rcv)
  end.

(** The same rule with the specification's reading of "exchange": any entity
    of the registry whose type is exchange, and any whose type is
    government. *)
Definition first_match_by_class (self : BitcoinWhaleTracker) (s rcv : json)
    (t : TxType) : Prop :=
  match t with
  | WITHDRAWAL => resolves_to self s "exchange"
  | DEPOSIT => ¬ resolves_to self s "exchange" ∧ resolves_to self rcv "exchange"
  | DOJ_TRANSFER =>
      ¬ resolves_to self s "exchange" ∧ ¬ resolves_to self rcv "exchange"
      ∧ (resolves_to self s "government" ∨ resolves_to self rcv "government")
  | UNKNOWN =>
      ¬ resolves_to self s "exchange" ∧ ¬ resolves_to self rcv "exchange"
      ∧ ¬ (resolves_to self s "government" ∨ resolves_to self rcv "government")
  end.

(** Every step of the classification of [tx] has a value, and the volume
    reaches the threshold. *)
Record steps (w : World) (self : BitcoinWhaleTracker) (tx : json)
    (ti to : Z) (s rcv h : json) (t : string) : Prop := Steps {
  steps_input : total_input tx = Ok ti;
  steps_output : total_output tx = Ok to;
  steps_whale : Qle_bool (min_btc self) (true_div ti satoshi_to_btc) = true;
  steps_sender : primary_sender tx = Ok s;
  steps_receiver : primary_receiver tx = Ok rcv;
  steps_hash : py_get tx "hash" (JStr "Unknown") = Ok h;
  steps_time : tx_timestamp w tx = Ok t
}.

(** ** The monitor over time *)

(** Successive passes of [monitor_loop], one per state of the world. *)
Definition monitor_loops (ws : list World) (self : BitcoinWhaleTracker)
  : BitcoinWhaleTracker :=
  foldl (λ self w, monitor_loop w self) self ws.

(** Everything one cycle finds, over all sources and in their order. *)
Definition found_in_cycle (w : World) : list addr_info :=
  mjoin ((λ src : string * (string * string),
            scan_doj_page w src.2.1 src.2.2) <$> sources).

(** The history of the tracker's monitor. *)
Definition recorded (self : BitcoinWhaleTracker) : gmap string addr_info :=
  addresses (address_history (doj_monitor self)).

(** None of the four case fields can be extracted from a text. *)
Definition no_case_field (w : World) (text : string) : Prop :=
  ∀ pattern,
    pattern ∈ [ case_number_pattern; filing_date_pattern;
                district_pattern; amount_pattern ] →
    re_search_group1 w pattern text = None.

(** ** Labels and names *)

(** [self.get_entity_name(tx['sender'])] as [print_transaction] and
    [check_whale_alert] call it, on whatever the record holds: a value that is
    not a string is in no list. *)
Definition entity_name_of (self : BitcoinWhaleTracker) (v : json) : string :=
  match v with
  | JStr a => get_entity_name self a
  | _ => "UNKNOWN"
  end.

(** [get_address_label]. *)
Definition get_address_label (self : BitcoinWhaleTracker) (a : string) : string :=
  if bool_decide (a ∈ known self "doj") then
    let case_number :=
      match addresses (address_history (doj_monitor self)) !! a with
      | Some doj_info => default "UNKNOWN" (case_number (case doj_info))
      | None => "UNKNOWN"
      end in
    "(DOJ - Case " +:+ case_number +:+ ")"
  else
    match find_entity self a with
    | Some (name, e) => "(" +:+ upper name +:+ " " +:+ etype e +:+ ")"
    | None => ""
    end.

(** ** Address statistics *)

(** A key of [address_stats]: what a sender or receiver can be when it is
    hashable. [True] and [1] are the same key. *)
Inductive key : Type :=
  | KNone
  | KInt (z : Z)
  | KStr (s : string).

#[global] Instance key_eq_dec : EqDecision key.
Proof. solve_decision. Defined.

#[global] Instance key_countable : Countable key.
Proof.
  refine (inj_countable'
    (λ k, match k with
          | KNone => inl ()
          | KInt z => inr (inl z)
          | KStr s => inr (inr s)
          end)
    (λ x, match x with
          | inl _ => KNone
          | inr (inl z) => KInt z
          | inr (inr s) => KStr s
          end) _).
  by intros [].
Defined.

(** [hash(v)], as a dict needs it: lists and dicts are unhashable. *)
Definition py_hash (v : json) : result key :=
  match v with
  | JNull => Ok KNone
  | JBool b => Ok (KInt (if b then 1 else 0))
  | JInt z => Ok (KInt z)
  | JStr s => Ok (KStr s)
  | JList _ | JObj _ => Raise TypeError
  end.

(** A Python [float]: an IEEE 754 binary64 value, with its signed zeros,
    infinities and NaN. *)
Definition float_add : spec_float → spec_float → spec_float := SFadd 53 1024.
Definition float_mul : spec_float → spec_float → spec_float := SFmul 53 1024.

Definition exact_int (z : Z) : spec_float :=
  match z with
  | Z0 => S754_zero false
  | Zpos p => S754_finite false p 0
  | Zneg p => S754_finite true p 0
  end.

(** The float nearest to a rational, ties to even: what [a / b] gives on two
    ints and what [float(text)] gives on a decimal. *)
Definition to_float (q : Q) : spec_float :=
  SFdiv 53 1024 (exact_int (Qnum q)) (exact_int (Zpos (Qden q))).

(** The rational a finite float is. *)
Definition float_value (x : spec_float) : Q :=
  match x with
  | S754_finite s m e =>
      let n := if s then Zneg m else Zpos m in
      if 0 <=? e then inject_Z (n * 2 ^ e) else n # Z.to_pos (2 ^ (- e))
  | _ => 0
  end.

(** A total of the statistics: the int [0] of a new entry, or a float once a
    volume has been added. *)
Inductive number : Type :=
  | NInt (z : Z)
  | NFloat (x : spec_float).

(** [total += btc_volume] with a float on the right. *)
Definition add_float (total : number) (btc_volume : spec_float) : number :=
  match total with
  | NInt z => NFloat (float_add (to_float (inject_Z z)) btc_volume)
  | NFloat x => NFloat (float_add x btc_volume)
  end.

Record stats : Type := {
  received_count : Z;
  sent_count : Z;
  total_received : number;
  total_sent : number;
  last_seen : option string
}.

(** The value the [defaultdict] makes for a key it does not have. *)
Definition fresh_stats : stats :=
  {| received_count := 0; sent_count := 0;
     total_received := NInt 0; total_sent := NInt 0; last_seen := None |}.

(** The three statements on [address_stats[sender]]; [btc_volume] is the
    quotient the float of the loop is the rounding of. *)
Definition record_sent (st : gmap key stats) (k : key) (btc_volume : Q)
    (time : string) : gmap key stats :=
  let s := default fresh_stats (st !! k) in
  <[k := {| received_count := received_count s;
            sent_count := sent_count s + 1;
            total_received := total_received s;
            total_sent := add_float (total_sent s) (to_float btc_volume);
            last_seen := Some time |}]> st.

(** The three statements on [address_stats[receiver]]. *)
Definition record_received (st : gmap key stats) (k : key) (btc_volume : Q)
    (time : string) : gmap key stats :=
  let s := default fresh_stats (st !! k) in
  <[k := {| received_count := received_count s + 1;
            sent_count := sent_count s;
            total_received :=
              add_float (total_received s) (to_float btc_volume);
            total_sent := total_sent s;
            last_seen := Some time |}]> st.

(** "Update address statistics" in the loop of [track_whale_transactions]:
    the statistics after the six statements, and the exception that stopped
    them, if any. What was written before the exception stays. *)
Definition update_stats (st : gmap key stats) (sender receiver : json)
    (btc_volume : Q) (time : string) : gmap key stats * option exn :=
  match py_hash sender with
  | Raise e => (st, Some e)
  | Ok ks =>
      let st1 := record_sent st ks btc_volume time in
      match py_hash receiver with
      | Raise e => (st1, Some e)
      | Ok kr => (record_received st1 kr btc_volume time, None)
      end
  end.

(** [btc_volume] of the loop, the number behind the string of the record. *)
Definition tx_volume (tx : json) : Q :=
  match total_input tx with
  | Ok total => true_div total satoshi_to_btc
  | Raise _ => 0
  end.

(** The [for] loop of [track_whale_transactions] with the statistics: the
    statistics at the end, the records that were printed, and the exception
    that ended the loop early, if any. [print_transaction] catches its own
    exceptions and changes nothing. *)
Fixpoint track_block (w : World) (self : BitcoinWhaleTracker)
    (st : gmap key stats) (transactions : list json)
  : gmap key stats * list whale_tx * option exn :=
  match transactions with
  | [] => (st, [], None)
  | tx :: rest =>
      match track_whale_tx w self tx with
      | Raise e => (st, [], Some e)
      | Ok None => track_block w self st rest
      | Ok (Some whale) =>
          match update_stats st (sender whale) (receiver whale)
                  (tx_volume tx) (timestamp whale) with
          | (st1, Some e) => (st1, [whale], Some e)
          | (st1, None) =>
              let '(st2, printed, e) := track_block w self st1 rest in
              (st2, whale :: printed, e)
          end
      end
  end.

(** What the [for] loop of [track_whale_transactions] shows of a block: the
    records printed and the exception that ended the loop early, if any (it
    is caught by the [except] of the [while] loop, which sleeps and polls
    again). Neither depends on the statistics the loop starts from. *)
Definition track_whale_transactions (w : World) (self : BitcoinWhaleTracker)
    (transactions : list json) : list whale_tx * option exn :=
  ((track_block w self ∅ transactions).1.2,
   (track_block w self ∅ transactions).2).

(** The sum of a counter over all addresses. *)
Definition count_all (f : stats → Z) (st : gmap key stats) : Z :=
  map_fold (λ _ s acc, f s + acc) 0 st.

(** ** The Twitter bot: [check_whale_alert] *)

(** Digits grouped by three from the right, as [','] in a format spec. *)
Fixpoint group3 (rev_digits : list ascii) : list ascii :=
  match rev_digits with
  | a :: b :: c :: (_ :: _) as rest =>
      a :: b :: c :: "," %char :: group3 rest
  | _ => rev_digits
  end.

Definition with_commas (digits : string) : string :=
  String.string_of_list_ascii
    (rev (group3 (rev (String.list_ascii_of_string digits)))).

(** The escape [\n] of a Python string. *)
Definition newline : string := String (ascii_of_nat 10) EmptyString.

(** The digits of a magnitude rounded to two decimals, ties to even. *)
Definition two_decimals (comma : bool) (magnitude : Q) : string :=
  let n := round_half_even (magnitude * inject_Z 100)%Q in
  let whole := pretty (n / 100) in
  (if comma then with_commas whole else whole)
  +:+ "." +:+ pad_left 2 (pretty (n mod 100)).

(** [f"{x:.2f}"] and [f"{x:,.2f}"] on a float: the decimal nearest to the
    value the float has. *)
Definition format_2f (comma : bool) (x : spec_float) : string :=
  match x with
  | S754_nan => "nan"
  | S754_infinity s => if s then "-inf" else "inf"
  | S754_zero s => (if s then "-" else "") +:+ "0.00"
  | S754_finite s m e =>
      (if s then "-" else "")
      +:+ two_decimals comma (float_value (S754_finite false m e))
  end.

(** The message of [check_whale_alert]. [btc_price] is the rate
    [get_btc_price] read, of which it returns the nearest float, or 0 when
    it failed. A volume that is a string cannot be multiplied by a float. *)
Definition whale_message (self : BitcoinWhaleTracker) (processed_tx : whale_tx)
    (btc_price : Q) : result string :=
  match btc_volume processed_tx with
  | PyFloat volume =>
      let usd_value := float_mul (to_float volume) (to_float btc_price) in
      Ok ("🚨 " +:+ tx_type processed_tx +:+ newline
          +:+ format_2f false (to_float volume) +:+ " BTC ($"
          +:+ format_2f true usd_value +:+ ")" +:+ newline
          +:+ "From: " +:+ entity_name_of self (sender processed_tx)
          +:+ newline
          +:+ "To: " +:+ entity_name_of self (receiver processed_tx))
  | PyStr _ => Raise TypeError
  end.

(** The [for] loop of [check_whale_alert]: it returns at the first
    transaction [process_transaction] gives a record for. The result is the
    message handed to [post_tweet], if any, and what the method returns. *)
Fixpoint first_whale_alert (w : World) (self : BitcoinWhaleTracker)
    (btc_price : Q) (post_tweet : string → bool) (txs : list json)
  : option string * bool :=
  match txs with
  | [] => (None, false)
  | tx :: rest =>
      match process_transaction w self tx with
      | Some processed_tx =>
          match whale_message self processed_tx btc_price with
          | Ok message => (Some message, post_tweet message)
          | Raise _ => (None, false)
          end
      | None => first_whale_alert w self btc_price post_tweet rest
      end
  end.

(** [TwitterBot.check_whale_alert]; [txs] is what [get_block_transactions]
    returns for the block. An empty hash is falsy. *)
Definition check_whale_alert (w : World) (self : BitcoinWhaleTracker)
    (btc_price : Q) (post_tweet : string → bool)
    (block_data : option (Z * string)) (txs : list json)
  : BitcoinWhaleTracker * (option string * bool) :=
  let '(self1, block_hash) := get_latest_block self block_data in
  match block_hash with
  | Some hash =>
      if bool_decide (hash = "") then (self1, (None, false))
      else (self1, first_whale_alert w self1 btc_price post_tweet txs)
  | None => (self1, (None, false))
  end.

(** ** Vocabulary of the further properties *)

(** The integer a value adds to a sum, if it is one. *)
Definition int_of (v : json) : option Z :=
  match v with
  | JInt z => Some z
  | JBool b => Some (if b then 1 else 0)
  | _ => None
  end.

(** Two records of the same transaction: same hash, time and parties. *)
Definition same_parties (r r' : whale_tx) : Prop :=
  transaction_hash r = transaction_hash r'
  ∧ timestamp r = timestamp r'
  ∧ sender r = sender r'
  ∧ receiver r = receiver r'.

(** * Properties *)

(** ** Sanity checks of the embedding *)

Example format_8f_600 : format_8f (true_div 60000000000 100000000) = "600.00000000".
Proof. vm_compute. reflexivity. Qed.
Example format_8f_fee : format_8f (true_div 10000123 100000000) = "0.10000123".
Proof. vm_compute. reflexivity. Qed.
Example format_8f_neg : format_8f (true_div (-5) 100000000) = "-0.00000005".
Proof. vm_compute. reflexivity. Qed.
Example upper_ex : upper "gate_io" = "GATE_IO".
Proof. reflexivity. Qed.

Example strftime_utc_ex :
  Sample.strftime_utc 1700000000 = Some "2023-11-14 22:13:20".
Proof. vm_compute. reflexivity. Qed.

Example scenario_withdrawal :
  track_whale_tx (Sample.world [] true) Sample.tracker
    (Sample.transfer Sample.binance_hot "1abc" 60000000000 59990000000)
  = Ok (Some {| transaction_hash := JStr "a1b2c3";
                timestamp := "2023-11-14 22:13:20";
                btc_volume := PyStr "600.00000000";
                fee_btc := PyStr "0.10000000";
                sender := JStr Sample.binance_hot;
                receiver := JStr "1abc";
                tx_type := "WITHDRAWAL" |}).
Proof. vm_compute. reflexivity. Qed.

(** ** The block cursor: [get_latest_block] *)

Section cursor.
Implicit Types (self : BitcoinWhaleTracker) (hash : string) (height : Z).

Lemma get_latest_block_bootstrap self height hash :
  last_block_height self = None →
  (get_latest_block self (Some (height, hash))).2 = Some hash
  ∧ last_block_height (get_latest_block self (Some (height, hash))).1
    = Some height
  ∧ processed_blocks (get_latest_block self (Some (height, hash))).1
    = processed_blocks self.
Proof. intros Hnone. unfold get_latest_block. by rewrite Hnone. Qed.

Lemma get_latest_block_seen self last height hash :
  last_block_height self = Some last →
  hash ∈ processed_blocks self →
  get_latest_block self (Some (height, hash)) = (self, None).
Proof.
  intros Hlast Hin. unfold get_latest_block. rewrite Hlast.
  by rewrite bool_decide_eq_true_2.
Qed.

Lemma get_latest_block_stale self last height hash :
  last_block_height self = Some last →
  height ≤ last →
  get_latest_block self (Some (height, hash)) = (self, None).
Proof.
  intros Hlast Hle. unfold get_latest_block. rewrite Hlast.
  case_bool_decide; [done|].
  rewrite bool_decide_eq_false_2; [done | lia].
Qed.

Lemma get_latest_block_new self last height hash :
  last_block_height self = Some last →
  hash ∉ processed_blocks self →
  last < height →
  let next := get_latest_block self (Some (height, hash)) in
  next.2 = Some hash
  ∧ last_block_height next.1 = Some height
  ∧ processed_blocks next.1
    = (if bool_decide (1000 < size (processed_blocks self))%nat
       then ∅ else processed_blocks self) ∪ {[ hash ]}
  ∧ min_btc next.1 = min_btc self
  ∧ doj_monitor next.1 = doj_monitor self
  ∧ doj_addresses next.1 = doj_addresses self.
Proof.
  intros Hlast Hnotin Hlt. unfold get_latest_block. rewrite Hlast.
  rewrite bool_decide_eq_false_2 by done.
  rewrite (bool_decide_eq_true_2 (last < height)) by done.
  done.
Qed.

(** C4. Observing the same height and hash twice in succession. The first
    call returns the hash in exactly two cases: it is the very first call
    ever (no height recorded yet), which returns the hash unconditionally
    and records the height as the baseline; or the hash is not in the set
    and the height is above the last processed one, and then the call
    returns the hash and records the height. The second call always
    returns [None] and leaves the cursor as the first call left it. *)
Theorem get_latest_block_twice self height hash :
  let first := get_latest_block self (Some (height, hash)) in
  let second := get_latest_block first.1 (Some (height, hash)) in
  (last_block_height self = None →
     first.2 = Some hash ∧ last_block_height first.1 = Some height)
  ∧ (∀ base, last_block_height self = Some base →
       hash ∉ processed_blocks self → base < height →
       first.2 = Some hash ∧ last_block_height first.1 = Some height)
  ∧ (first.2 = Some hash ↔
     last_block_height self = None
     ∨ ∃ base, last_block_height self = Some base
               ∧ (hash ∉ processed_blocks self) ∧ base < height)
  ∧ second = (first.1, None).
Proof.
  intros first second. subst first second.
  destruct (last_block_height self) as [base|] eqn:Hbase.
  - split; [done|].
    destruct (decide (hash ∈ processed_blocks self)) as [Hin|Hnew].
    { rewrite (get_latest_block_seen self base height hash) by done.
      cbn [fst snd].
      rewrite (get_latest_block_seen self base height hash) by done.
      split; [done|]. split; [|done].
      split; [done|]. by intros [?|(? & _ & ? & _)]. }
    destruct (decide (base < height)) as [Hlt|Hge].
    + destruct (get_latest_block_new self base height hash Hbase Hnew Hlt)
        as (Hret & Hh & Hset & _).
      split; [by intros ? [= <-] _ _|]. split.
      * split; [|done]. intros _. right. by exists base.
      * eapply get_latest_block_seen; [exact Hh|].
        rewrite Hset. apply elem_of_union_r. by apply elem_of_singleton.
    + rewrite (get_latest_block_stale self base height hash) by (done || lia).
      cbn [fst snd].
      rewrite (get_latest_block_stale self base height hash) by (done || lia).
      split; [intros ? [= <-] _ ?; lia|]. split; [|done].
      split; [done|]. intros [?|(? & [= <-] & _ & ?)]; [done | lia].
  - destruct (get_latest_block_bootstrap self height hash Hbase)
      as (Hret & Hh & _).
    split; [done|]. split; [done|]. split.
    + split; [by left | done].
    + eapply get_latest_block_stale; [exact Hh | lia].
Qed.

Lemma get_latest_block_twice_witness :
  let fresh := init 500 empty_history in
  let booted := (get_latest_block fresh (Some (840000, "00000000a1"))).1 in
  (get_latest_block fresh (Some (840000, "00000000a1"))).2
  = Some "00000000a1"
  ∧ get_latest_block booted (Some (840000, "00000000a1")) = (booted, None)
  ∧ (get_latest_block booted (Some (840001, "00000000b2"))).2
    = Some "00000000b2"
  ∧ get_latest_block
      (get_latest_block booted (Some (840001, "00000000b2"))).1
      (Some (840001, "00000000b2"))
    = ((get_latest_block booted (Some (840001, "00000000b2"))).1, None).
Proof.
  intros fresh booted.
  destruct (get_latest_block_twice fresh 840000 "00000000a1")
    as (Hboot & _ & _ & Hsecond).
  destruct (get_latest_block_twice booted 840001 "00000000b2")
    as (_ & Hnew & _ & Hsecond').
  split; [by apply Hboot|]. split; [exact Hsecond|]. split; [|exact Hsecond'].
  apply (Hnew 840000); [reflexivity | apply not_elem_of_empty | lia].
Defined.

(** The first call does not put its hash into the set: what keeps the
    first block from being returned again is its height. *)
Example bootstrap_hash_not_recorded :
  let first := get_latest_block (init 500 empty_history)
                 (Some (840000, "00000000a1")) in
  processed_blocks first.1 = ∅
  ∧ (get_latest_block first.1 (Some (840000, "00000000a1"))).2 = None
  ∧ (get_latest_block first.1 (Some (840001, "00000000a1"))).2
    = Some "00000000a1".
Proof. repeat split; vm_compute; reflexivity. Qed.

Lemma last_cons {A} (l : list A) : ∀ x d,
  List.last (x :: l) d = List.last l x.
Proof.
  induction l as [|y l IH]; intros x d; [done|].
  transitivity (List.last (y :: l) d); [done|]. by rewrite !IH.
Qed.

Lemma poll_cons self block_data rest :
  poll self (block_data :: rest)
  = ((poll (get_latest_block self (Some block_data)).1 rest).1,
     (get_latest_block self (Some block_data)).2
     :: (poll (get_latest_block self (Some block_data)).1 rest).2).
Proof.
  cbn [poll]. destruct (get_latest_block self (Some block_data)) as [self1 r].
  cbn [fst snd]. by destruct (poll self1 rest).
Qed.

(** New hashes at growing heights are all accepted and all kept, as long
    as no call finds more than 1000 entries in the set. *)
Lemma poll_fill (answers : list (Z * string)) : ∀ self base,
  last_block_height self = Some base →
  NoDup answers.*2 →
  (∀ hash, hash ∈ answers.*2 → hash ∉ processed_blocks self) →
  increasing base answers.*1 →
  (size (processed_blocks self) + length answers ≤ 1001)%nat →
  (poll self answers).2 = Some <$> answers.*2
  ∧ last_block_height (poll self answers).1
    = Some (List.last answers.*1 base)
  ∧ processed_blocks (poll self answers).1
    = processed_blocks self ∪ list_to_set answers.*2
  ∧ size (processed_blocks (poll self answers).1)
    = (size (processed_blocks self) + length answers)%nat.
Proof.
  induction answers as [|[height hash] rest IH];
    intros self base Hbase Hnodup Hfresh Hinc Hsize.
  - simpl. rewrite (right_id_L ∅ (∪)). repeat split; [done | lia].
  - rewrite poll_cons. rewrite !fmap_cons in *.
    cbn [fst snd length increasing] in *.
    apply NoDup_cons in Hnodup as [Hhash Hnodup].
    destruct Hinc as [Hlt Hinc].
    assert (hash ∉ processed_blocks self) as Hnew
      by (apply Hfresh; left).
    destruct (get_latest_block_new self base height hash Hbase Hnew Hlt)
      as (Hret & Hh & Hset & _).
    rewrite bool_decide_eq_false_2 in Hset by lia.
    rewrite Hret.
    set (next := (get_latest_block self (Some (height, hash))).1) in *.
    assert (size (processed_blocks next)
            = S (size (processed_blocks self))) as Hnext.
    { rewrite Hset, size_union, size_singleton; [lia|].
      by apply disjoint_singleton_r. }
    destruct (IH next height Hh Hnodup) as (Hrets & Hlast & Hset' & Hsize').
    { intros y Hy. rewrite Hset.
      intros [?| ->%elem_of_singleton]%elem_of_union; [|done].
      by eapply Hfresh; [right|]. }
    { done. }
    { lia. }
    rewrite Hrets, Hlast, Hsize', Hnext, Hset', Hset.
    repeat split.
    + by rewrite last_cons.
    + by rewrite list_to_set_cons, (assoc_L (∪)).
    + lia.
Qed.

Lemma chain_heights start n : (chain start n).*1 = Z.of_nat <$> seq start n.
Proof. unfold chain. by rewrite <- list_fmap_compose. Qed.

Lemma chain_hashes start n : (chain start n).*2 = pretty <$> seq start n.
Proof. unfold chain. by rewrite <- list_fmap_compose. Qed.

Lemma chain_NoDup start n : NoDup (chain start n).*2.
Proof. rewrite chain_hashes. apply (NoDup_fmap_2 _), NoDup_seq. Qed.

Lemma chain_increasing n : ∀ start base,
  base < Z.of_nat start → increasing base (chain start n).*1.
Proof.
  intros start base Hlt. rewrite chain_heights. revert start base Hlt.
  induction n as [|n IH]; intros start base Hlt.
  - done.
  - simpl. split; [done|]. apply IH. lia.
Qed.

Lemma chain_last n start base :
  List.last (chain start (S n)).*1 base = Z.of_nat (start + n).
Proof.
  rewrite chain_heights. revert start base.
  induction n as [|n IH]; intros start base.
  - simpl. f_equal. lia.
  - change (seq start (S (S n))) with (start :: seq (S start) (S n)).
    rewrite fmap_cons, last_cons, IH. f_equal. lia.
Qed.

Lemma chain_length start n : length (chain start n) = n.
Proof. unfold chain. by rewrite length_fmap, length_seq. Qed.

Lemma chain_S start n :
  chain start (S n) = (Z.of_nat start, pretty start) :: chain (S start) n.
Proof. done. Qed.

Lemma elem_of_chain_hashes start n (i : nat) :
  pretty i ∈ (chain start n).*2 ↔ (start ≤ i < start + n)%nat.
Proof.
  rewrite chain_hashes, list_elem_of_fmap. split.
  - intros (j & ->%(inj pretty) & Hj). by apply elem_of_seq in Hj.
  - intros Hi. exists i. split; [done|]. by apply elem_of_seq.
Qed.

(** The tracker after the very first answer (block [start] of the chain)
    and the [n] blocks that follow it, for [n] up to 1001: the first hash
    is not recorded, the [n] others are. *)
Lemma poll_chain self start n :
  last_block_height self = None →
  processed_blocks self = ∅ →
  (n ≤ 1001)%nat →
  (poll self (chain start (S n))).2 = Some <$> (chain start (S n)).*2
  ∧ last_block_height (poll self (chain start (S n))).1
    = Some (Z.of_nat (start + n))
  ∧ processed_blocks (poll self (chain start (S n))).1
    = list_to_set (chain (S start) n).*2
  ∧ size (processed_blocks (poll self (chain start (S n))).1) = n.
Proof.
  intros Hnone Hempty Hn. rewrite chain_S, poll_cons. cbn [fst snd].
  destruct (get_latest_block_bootstrap self (Z.of_nat start) (pretty start)
              Hnone) as (Hret & Hh & Hset).
  rewrite Hempty in Hset.
  set (booted := (get_latest_block self _).1) in *.
  destruct (poll_fill (chain (S start) n) booted (Z.of_nat start) Hh)
    as (Hrets & Hlast & Hset' & Hsize).
  { apply chain_NoDup. }
  { intros hash _. rewrite Hset. apply not_elem_of_empty. }
  { apply chain_increasing. lia. }
  { rewrite Hset, size_empty, chain_length. lia. }
  rewrite Hret, Hrets, Hlast, Hsize, Hset', Hset, size_empty, chain_length.
  repeat split.
  - destruct n as [|n]; [simpl; f_equal; lia|].
    rewrite chain_last. f_equal. lia.
  - by rewrite (left_id_L ∅ (∪)).
Qed.

(** C3, as the code has it. Start from a cursor that has its baseline
    height and an empty set, and let 1001 pairwise distinct hashes arrive
    at strictly growing heights. All are returned and all are kept: the
    set then holds 1001 entries and observing any of them again returns
    [None], whatever the height. The flush is done by the next insertion: a
    further new hash at a greater height is returned and leaves the set
    with that hash alone; from then on one of the 1001 earlier hashes is
    returned again exactly when it arrives at a height greater than the
    last processed one. *)
Theorem processed_blocks_flush self base (answers : list (Z * string)) :
  last_block_height self = Some base →
  processed_blocks self = ∅ →
  length answers = 1001%nat →
  NoDup answers.*2 →
  increasing base answers.*1 →
  let full := (poll self answers).1 in
  (poll self answers).2 = Some <$> answers.*2
  ∧ size (processed_blocks full) = 1001%nat
  ∧ (∀ height old, old ∈ answers.*2 →
       get_latest_block full (Some (height, old)) = (full, None))
  ∧ (∀ height hash,
       hash ∉ answers.*2 → List.last answers.*1 base < height →
       let flushed := get_latest_block full (Some (height, hash)) in
       flushed.2 = Some hash
       ∧ processed_blocks flushed.1 = {[ hash ]}
       ∧ ∀ height' old, old ∈ answers.*2 →
           (get_latest_block flushed.1 (Some (height', old))).2
           = if bool_decide (height < height') then Some old else None).
Proof.
  intros Hbase Hempty Hlen Hnodup Hinc full.
  destruct (poll_fill answers self base Hbase Hnodup)
    as (Hrets & Hlast & Hset & Hsize); [ | done | | ].
  { intros hash _. rewrite Hempty. apply not_elem_of_empty. }
  { rewrite Hempty, size_empty, Hlen. lia. }
  rewrite Hempty, size_empty, Hlen in Hsize.
  rewrite Hempty, (left_id_L ∅ (∪)) in Hset.
  fold full in Hlast, Hset, Hsize.
  split; [done|]. split; [done|]. split.
  - intros height old Hold.
    eapply get_latest_block_seen; [exact Hlast|].
    rewrite Hset. by apply elem_of_list_to_set.
  - intros height hash Hnew Hlt flushed.
    destruct (get_latest_block_new full _ height hash Hlast) as
      (Hret & Hh & Hflushed & _); [ | done | ].
    { rewrite Hset. by rewrite elem_of_list_to_set. }
    rewrite bool_decide_eq_true_2, (left_id_L ∅ (∪)) in Hflushed
      by (rewrite Hsize; lia).
    fold flushed in Hret, Hh, Hflushed.
    split; [done|]. split; [done|].
    intros height' old Hold.
    assert (old ∉ processed_blocks flushed.1) as Hgone.
    { rewrite Hflushed, elem_of_singleton. by intros ->. }
    case_bool_decide as Hnewer.
    + by destruct (get_latest_block_new flushed.1 height height' old Hh
                     Hgone Hnewer) as (-> & _).
    + rewrite (get_latest_block_stale flushed.1 height height' old Hh);
        [done | lia].
Qed.

Lemma processed_blocks_flush_witness :
  let booted := (get_latest_block (init 500 empty_history) (Some (0, "0"))).1 in
  let full := (poll booted (chain 1 1001)).1 in
  (poll booted (chain 1 1001)).2 = Some <$> (chain 1 1001).*2
  ∧ size (processed_blocks full) = 1001%nat
  ∧ (∀ height old, old ∈ (chain 1 1001).*2 →
       get_latest_block full (Some (height, old)) = (full, None))
  ∧ (∀ height hash,
       hash ∉ (chain 1 1001).*2 → List.last (chain 1 1001).*1 0 < height →
       let flushed := get_latest_block full (Some (height, hash)) in
       flushed.2 = Some hash
       ∧ processed_blocks flushed.1 = {[ hash ]}
       ∧ ∀ height' old, old ∈ (chain 1 1001).*2 →
           (get_latest_block flushed.1 (Some (height', old))).2
           = if bool_decide (height < height') then Some old else None).
Proof.
  apply (processed_blocks_flush
           (get_latest_block (init 500 empty_history) (Some (0, "0"))).1
           0 (chain 1 1001)).
  - reflexivity.
  - reflexivity.
  - apply chain_length.
  - apply chain_NoDup.
  - apply chain_increasing. lia.
Defined.

(** C3 as stated fails. Let the tracker see block 0 (the very first call)
    and then blocks 1 to 1001, each with a hash of its own: the 1001 hashes
    of blocks 1 to 1001 are inserted and none is flushed, so the hash of
    block 1 is refused again, at its own height and at a greater one. With
    the first call counted as one of the 1001 (blocks 0 to 1000), the set
    holds 1000 hashes and block 0 is refused too. *)
Lemma no_flush_after_1001_hashes :
  let self := (poll (init 500 empty_history) (chain 0 1002)).1 in
  let self' := (poll (init 500 empty_history) (chain 0 1001)).1 in
  (poll (init 500 empty_history) (chain 0 1002)).2
  = Some <$> (chain 0 1002).*2
  ∧ size (processed_blocks self) = 1001%nat
  ∧ (get_latest_block self (Some (1, "1"))).2 = None
  ∧ (get_latest_block self (Some (1002, "1"))).2 = None
  ∧ size (processed_blocks self') = 1000%nat
  ∧ (get_latest_block self' (Some (0, "0"))).2 = None.
Proof.
  intros self self'.
  destruct (poll_chain (init 500 empty_history) 0 1001 eq_refl eq_refl)
    as (Hrets & Hlast & Hset & Hsize); [lia|].
  destruct (poll_chain (init 500 empty_history) 0 1000 eq_refl eq_refl)
    as (_ & Hlast' & _ & Hsize'); [lia|].
  fold self in Hlast, Hset, Hsize. fold self' in Hlast', Hsize'.
  assert ("1" ∈ processed_blocks self) as Hin.
  { rewrite Hset, elem_of_list_to_set.
    apply (elem_of_chain_hashes 1 1001 1). lia. }
  split; [exact Hrets|]. split; [exact Hsize|].
  split; [by rewrite (get_latest_block_seen self _ 1 "1" Hlast Hin)|].
  split; [by rewrite (get_latest_block_seen self _ 1002 "1" Hlast Hin)|].
  split; [exact Hsize'|].
  rewrite (get_latest_block_stale self' _ 0 "0" Hlast'); [reflexivity|lia].
Qed.
End cursor.

(** ** The classifier: [process_transaction] and the loop of
    [track_whale_transactions] *)

Section classifier.
Context (w : World) (self : BitcoinWhaleTracker).
Implicit Types (tx : json) (r : whale_tx).

Lemma known_doj : known self "doj" = doj_addresses self.
Proof. reflexivity. Qed.

Lemma py_in_true (v : json) (l : list string) :
  py_in v l = true ↔ ∃ a, v = JStr a ∧ a ∈ l.
Proof.
  split.
  - destruct v; simpl; try discriminate.
    intros Hin%bool_decide_eq_true. eauto.
  - intros (a & -> & Hin). simpl. by apply bool_decide_eq_true.
Qed.

Lemma listed_true (v : json) :
  py_in v (known self "binance") || py_in v (known self "coinbase") = true
  ↔ binance_or_coinbase self v.
Proof.
  rewrite orb_true_iff, !py_in_true. unfold binance_or_coinbase.
  split.
  - intros [(a & -> & ?)|(a & -> & ?)]; eauto.
  - intros (a & -> & [?|?]); eauto.
Qed.

Lemma doj_true (s rcv : json) :
  py_in s (known self "doj") || py_in rcv (known self "doj") = true
  ↔ government self s ∨ government self rcv.
Proof. by rewrite orb_true_iff, !py_in_true, known_doj. Qed.

(** A transaction whose inputs can be summed is a dict, so its hash can be
    read. *)
Lemma total_input_hash tx ti :
  total_input tx = Ok ti →
  ∃ h, py_get tx "hash" (JStr "Unknown") = Ok h.
Proof. destruct tx; try discriminate. simpl. eauto. Qed.

(** What the two code paths compute once every step has a value. *)
Lemma process_transaction_try_eq tx ti to s rcv h t :
  total_input tx = Ok ti →
  total_output tx = Ok to →
  primary_sender tx = Ok s →
  primary_receiver tx = Ok rcv →
  py_get tx "hash" (JStr "Unknown") = Ok h →
  tx_timestamp w tx = Ok t →
  process_transaction_try w self tx
  = if Qle_bool (min_btc self) (true_div ti satoshi_to_btc) then
      Ok (Some {| transaction_hash := h;
                  timestamp := t;
                  btc_volume := PyFloat (true_div ti satoshi_to_btc);
                  fee_btc := PyFloat (true_div (ti - to) satoshi_to_btc);
                  sender := s;
                  receiver := rcv;
                  tx_type :=
                    if py_in s (known self "binance")
                       || py_in s (known self "coinbase")
                    then "witdrawal"
                    else if py_in rcv (known self "binance")
                            || py_in rcv (known self "coinbase")
                    then "deposit"
                    else if py_in s (known self "doj")
                            || py_in rcv (known self "doj")
                    then "doj transfer"
                    else "alert #bitcoin" |})
    else Ok None.
Proof.
  intros Hti Hto Hs Hrcv Hh Ht. unfold process_transaction_try.
  rewrite Hti, Hto. cbn [mbind result_bind].
  by rewrite Hs, Hrcv, Hh, Ht.
Qed.

Lemma track_whale_tx_eq tx ti to s rcv h t :
  total_input tx = Ok ti →
  total_output tx = Ok to →
  primary_sender tx = Ok s →
  primary_receiver tx = Ok rcv →
  py_get tx "hash" (JStr "Unknown") = Ok h →
  tx_timestamp w tx = Ok t →
  track_whale_tx w self tx
  = if Qle_bool (min_btc self) (true_div ti satoshi_to_btc) then
      Ok (Some {| transaction_hash := h;
                  timestamp := t;
                  btc_volume := PyStr (format_8f (true_div ti satoshi_to_btc));
                  fee_btc :=
                    PyStr (format_8f (true_div (ti - to) satoshi_to_btc));
                  sender := s;
                  receiver := rcv;
                  tx_type :=
                    if py_in s (known self "binance")
                       || py_in s (known self "coinbase")
                    then "WITHDRAWAL"
                    else if py_in rcv (known self "binance")
                            || py_in rcv (known self "coinbase")
                    then "DEPOSIT"
                    else if py_in s (known self "doj")
                            || py_in rcv (known self "doj")
                    then "DOJ TRANSFER"
                    else "UNKNOWN" |})
    else Ok None.
Proof.
  intros Hti Hto Hs Hrcv Hh Ht. unfold track_whale_tx.
  rewrite Hti, Hto. cbn [mbind result_bind].
  by rewrite Hs, Hrcv, Hh, Ht.
Qed.

(** One step of a computation that ended with a value had a value. *)
Ltac step_ok e H :=
  destruct e eqn:H; [|discriminate]; cbn [mbind result_bind].

Lemma process_transaction_try_inv tx r :
  process_transaction_try w self tx = Ok (Some r) →
  ∃ ti to s rcv h t, steps w self tx ti to s rcv h t.
Proof.
  unfold process_transaction_try.
  step_ok (total_input tx) Hti. step_ok (total_output tx) Hto.
  destruct (Qle_bool _ _) eqn:Hle; [|discriminate].
  step_ok (primary_sender tx) Hs. step_ok (primary_receiver tx) Hrcv.
  step_ok (py_get tx "hash" (JStr "Unknown")) Hh.
  step_ok (tx_timestamp w tx) Ht.
  intros _. do 6 eexists. by constructor.
Qed.

Lemma track_whale_tx_inv tx r :
  track_whale_tx w self tx = Ok (Some r) →
  ∃ ti to s rcv h t, steps w self tx ti to s rcv h t.
Proof.
  unfold track_whale_tx.
  step_ok (total_input tx) Hti. step_ok (total_output tx) Hto.
  destruct (Qle_bool _ _) eqn:Hle; [|discriminate].
  step_ok (primary_sender tx) Hs. step_ok (primary_receiver tx) Hrcv.
  step_ok (py_get tx "hash" (JStr "Unknown")) Hh.
  step_ok (tx_timestamp w tx) Ht.
  intros _. do 6 eexists. by constructor.
Qed.

Lemma steps_track tx ti to s rcv h t :
  steps w self tx ti to s rcv h t →
  ∃ r, track_whale_tx w self tx = Ok (Some r)
       ∧ transaction_hash r = h ∧ timestamp r = t
       ∧ btc_volume r = PyStr (format_8f (true_div ti satoshi_to_btc))
       ∧ fee_btc r = PyStr (format_8f (true_div (ti - to) satoshi_to_btc))
       ∧ sender r = s ∧ receiver r = rcv
       ∧ tx_type r
         = if py_in s (known self "binance") || py_in s (known self "coinbase")
           then "WITHDRAWAL"
           else if py_in rcv (known self "binance")
                   || py_in rcv (known self "coinbase")
           then "DEPOSIT"
           else if py_in s (known self "doj") || py_in rcv (known self "doj")
           then "DOJ TRANSFER"
           else "UNKNOWN".
Proof.
  intros [Hti Hto Hle Hs Hrcv Hh Ht].
  rewrite (track_whale_tx_eq tx ti to s rcv h t) by done. rewrite Hle.
  eexists. split; [reflexivity|]. by cbn.
Qed.

Lemma steps_process tx ti to s rcv h t :
  steps w self tx ti to s rcv h t →
  ∃ r, process_transaction w self tx = Some r
       ∧ transaction_hash r = h ∧ timestamp r = t
       ∧ btc_volume r = PyFloat (true_div ti satoshi_to_btc)
       ∧ fee_btc r = PyFloat (true_div (ti - to) satoshi_to_btc)
       ∧ sender r = s ∧ receiver r = rcv
       ∧ tx_type r
         = if py_in s (known self "binance") || py_in s (known self "coinbase")
           then "witdrawal"
           else if py_in rcv (known self "binance")
                   || py_in rcv (known self "coinbase")
           then "deposit"
           else if py_in s (known self "doj") || py_in rcv (known self "doj")
           then "doj transfer"
           else "alert #bitcoin".
Proof.
  intros [Hti Hto Hle Hs Hrcv Hh Ht]. unfold process_transaction.
  rewrite (process_transaction_try_eq tx ti to s rcv h t) by done. rewrite Hle.
  eexists. split; [reflexivity|]. by cbn.
Qed.

Lemma process_transaction_inv tx r :
  process_transaction w self tx = Some r →
  ∃ ti to s rcv h t, steps w self tx ti to s rcv h t.
Proof.
  unfold process_transaction.
  destruct (process_transaction_try w self tx) as [[r'|]|] eqn:Htry;
    [|discriminate..].
  intros _. by eapply process_transaction_try_inv.
Qed.

(** The chain of conditions of both code paths picks the first rule that
    matches. *)
Lemma chain_first_match (s rcv : json) :
  ∃ t, first_match self s rcv t
       ∧ (if py_in s (known self "binance") || py_in s (known self "coinbase")
          then "WITHDRAWAL"
          else if py_in rcv (known self "binance")
                  || py_in rcv (known self "coinbase")
          then "DEPOSIT"
          else if py_in s (known self "doj") || py_in rcv (known self "doj")
          then "DOJ TRANSFER"
          else "UNKNOWN") = loop_label t
       ∧ (if py_in s (known self "binance") || py_in s (known self "coinbase")
          then "witdrawal"
          else if py_in rcv (known self "binance")
                  || py_in rcv (known self "coinbase")
          then "deposit"
          else if py_in s (known self "doj") || py_in rcv (known self "doj")
          then "doj transfer"
          else "alert #bitcoin") = process_label t.
Proof.
  destruct (py_in s (known self "binance") || py_in s (known self "coinbase"))
    eqn:Hs.
  { exists WITHDRAWAL. split; [by apply listed_true | done]. }
  assert (¬ binance_or_coinbase self s) as Hs'
    by (rewrite <- listed_true; congruence).
  destruct (py_in rcv (known self "binance")
            || py_in rcv (known self "coinbase")) eqn:Hrcv.
  { exists DEPOSIT. split; [split; [done | by apply listed_true] | done]. }
  assert (¬ binance_or_coinbase self rcv) as Hrcv'
    by (rewrite <- listed_true; congruence).
  destruct (py_in s (known self "doj") || py_in rcv (known self "doj"))
    eqn:Hdoj.
  { exists DOJ_TRANSFER. split; [|done].
    repeat split; [done..|]. by apply doj_true. }
  exists UNKNOWN. split; [|done].
  repeat split; [done..|]. rewrite <- doj_true. congruence.
Qed.

Lemma first_match_unique (s rcv : json) (t t' : TxType) :
  first_match self s rcv t → first_match self s rcv t' → t = t'.
Proof. destruct t, t'; simpl; tauto. Qed.

End classifier.

(** C1, as the code has it. A record built by the loop of
    [track_whale_transactions] has the sender and receiver of the first input
    and the first output, and its type is that of the first rule that
    matches, in this order: the sender is a listed Binance or Coinbase
    address (WITHDRAWAL), else the receiver is one (DEPOSIT), else one of the
    two is in the government bucket (DOJ TRANSFER), else UNKNOWN. In
    particular a Binance or Coinbase sender with a government receiver is a
    WITHDRAWAL. [process_transaction] returns a record for the same
    transaction and follows the same rule, with labels of its own. *)
Theorem tx_type_precedence (w : World) (self : BitcoinWhaleTracker)
    (tx : json) (r : whale_tx) :
  track_whale_tx w self tx = Ok (Some r) →
  primary_sender tx = Ok (sender r)
  ∧ primary_receiver tx = Ok (receiver r)
  ∧ (∃ t, first_match self (sender r) (receiver r) t)
  ∧ (∀ t, first_match self (sender r) (receiver r) t →
          tx_type r = loop_label t)
  ∧ (binance_or_coinbase self (sender r) → government self (receiver r) →
     tx_type r = "WITHDRAWAL")
  ∧ (∃ r', process_transaction w self tx = Some r'
           ∧ sender r' = sender r ∧ receiver r' = receiver r
           ∧ ∀ t, first_match self (sender r) (receiver r) t →
                  tx_type r' = process_label t).
Proof.
  intros Hr.
  destruct (track_whale_tx_inv w self tx r Hr) as (ti & to & s & rcv & h & t & Hsteps).
  destruct (steps_track w self tx ti to s rcv h t Hsteps)
    as (r0 & Hr0 & _ & _ & _ & _ & Hs & Hrcv & Htype).
  assert (r0 = r) as -> by congruence.
  destruct (steps_process w self tx ti to s rcv h t Hsteps)
    as (r' & Hr' & _ & _ & _ & _ & Hs' & Hrcv' & Htype').
  destruct (chain_first_match self s rcv) as (t0 & Hmatch & Hloop & Hproc).
  rewrite Hs, Hrcv, Htype, Hloop.
  split; [apply Hsteps|]. split; [apply Hsteps|].
  split; [by exists t0|]. split; [|split].
  - intros t' Hmatch'. by rewrite (first_match_unique self s rcv t' t0).
  - intros Hboc _. by rewrite (first_match_unique self s rcv t0 WITHDRAWAL).
  - exists r'. rewrite Hs', Hrcv', Htype', Hproc. repeat split; [done|].
    intros t' Hmatch'. by rewrite (first_match_unique self s rcv t' t0).
Qed.

Lemma tx_type_precedence_witness :
  ∃ r, track_whale_tx (Sample.world [] true) Sample.tracker_after_scan
         (Sample.transfer Sample.binance_hot Sample.seized
            60000000000 59990000000) = Ok (Some r)
       ∧ binance_or_coinbase Sample.tracker_after_scan (sender r)
       ∧ government Sample.tracker_after_scan (receiver r)
       ∧ tx_type r = "WITHDRAWAL".
Proof.
  eexists. split; [vm_compute; reflexivity|].
  assert (binance_or_coinbase Sample.tracker_after_scan
            (JStr Sample.binance_hot)) as Hs.
  { exists Sample.binance_hot. split; [done|]. left. vm_compute. left. }
  assert (government Sample.tracker_after_scan (JStr Sample.seized)) as Hrcv.
  { exists Sample.seized. split; [done|]. vm_compute. left. }
  split; [exact Hs|]. split; [exact Hrcv|].
  eapply (tx_type_precedence (Sample.world [] true) Sample.tracker_after_scan
            (Sample.transfer Sample.binance_hot Sample.seized
               60000000000 59990000000)).
  - vm_compute. reflexivity.
  - exact Hs.
  - exact Hrcv.
Defined.

(** C1 as stated fails: the hot wallet of Kraken resolves to an entity of
    type exchange, yet a whale transaction it sends to a government address
    is a DOJ TRANSFER, and one it sends to an unlisted address is UNKNOWN. *)
Lemma kraken_sender_is_no_withdrawal :
  let self := Sample.tracker_after_scan in
  let w := Sample.world [] true in
  (∃ r, track_whale_tx w self
          (Sample.transfer Sample.kraken_hot Sample.seized
             60000000000 59990000000) = Ok (Some r)
        ∧ first_match_by_class self (sender r) (receiver r) WITHDRAWAL
        ∧ resolves_to self (receiver r) "government"
        ∧ tx_type r = "DOJ TRANSFER"
        ∧ tx_type r ≠ loop_label WITHDRAWAL)
  ∧ (∃ r, track_whale_tx w self
            (Sample.transfer Sample.kraken_hot "1BoatSLRHtKNngkdXEeobR76b53LETtpyT"
               60000000000 59990000000) = Ok (Some r)
          ∧ first_match_by_class self (sender r) (receiver r) WITHDRAWAL
          ∧ tx_type r = "UNKNOWN"
          ∧ tx_type r ≠ loop_label WITHDRAWAL).
Proof.
  assert (resolves_to Sample.tracker_after_scan (JStr Sample.kraken_hot)
            "exchange") as Hkraken.
  { eexists _, _, _. split; [reflexivity|]. split; vm_compute; reflexivity. }
  split.
  - eexists. split; [vm_compute; reflexivity|]. split; [exact Hkraken|].
    split; [|split; [reflexivity | discriminate]].
    eexists _, _, _. split; [reflexivity|]. split; vm_compute; reflexivity.
  - eexists. split; [vm_compute; reflexivity|]. split; [exact Hkraken|].
    split; [reflexivity | discriminate].
Qed.

(** ** The threshold *)

Lemma Qle_bool_false (a b : Q) : Qle_bool a b = false ↔ (b < a)%Q.
Proof.
  rewrite <- not_true_iff_false, Qle_bool_iff. split.
  - apply Qnot_le_lt.
  - apply Qlt_not_le.
Qed.

(** C2, as the code has it. When the inputs of a transaction can be summed
    and the volume is below the threshold, [process_transaction] returns
    [None]. When the outputs, the primary sender and receiver and the
    timestamp have values too, it returns [None] exactly when the volume is
    strictly below the threshold: a volume equal to the threshold passes and
    yields a record that carries it; the loop of [track_whale_transactions]
    skips and keeps the same transactions. *)
Theorem threshold_filter (w : World) (self : BitcoinWhaleTracker)
    (tx : json) (ti : Z) :
  total_input tx = Ok ti →
  ((true_div ti satoshi_to_btc < min_btc self)%Q →
   process_transaction w self tx = None)
  ∧ (∀ to s rcv t,
       total_output tx = Ok to →
       primary_sender tx = Ok s →
       primary_receiver tx = Ok rcv →
       tx_timestamp w tx = Ok t →
       (process_transaction w self tx = None
        ↔ (true_div ti satoshi_to_btc < min_btc self)%Q)
       ∧ (track_whale_tx w self tx = Ok None
          ↔ (true_div ti satoshi_to_btc < min_btc self)%Q)
       ∧ ((min_btc self <= true_div ti satoshi_to_btc)%Q →
          ∃ r, process_transaction w self tx = Some r
               ∧ btc_volume r = PyFloat (true_div ti satoshi_to_btc))).
Proof.
  intros Hti. split.
  - intros Hlt%Qle_bool_false. unfold process_transaction, process_transaction_try.
    rewrite Hti. cbn [mbind result_bind].
    destruct (total_output tx); [|done]. cbn [mbind result_bind].
    by rewrite Hlt.
  - intros to s rcv t Hto Hs Hrcv Ht.
    destruct (total_input_hash tx ti Hti) as [h Hh].
    unfold process_transaction.
    rewrite (process_transaction_try_eq w self tx ti to s rcv h t) by done.
    rewrite (track_whale_tx_eq w self tx ti to s rcv h t) by done.
    destruct (Qle_bool (min_btc self) (true_div ti satoshi_to_btc)) eqn:Hle.
    + assert (min_btc self <= true_div ti satoshi_to_btc)%Q as Hle'
        by by apply Qle_bool_iff.
      split; [|split].
      * split; [done|]. intros Hlt. by apply Qlt_not_le in Hlt.
      * split; [done|]. intros Hlt. by apply Qlt_not_le in Hlt.
      * intros _. eexists. split; reflexivity.
    + apply Qle_bool_false in Hle.
      split; [|split]; [done | done |].
      intros Hle'. by apply Qlt_not_le in Hle.
Qed.

Lemma threshold_filter_witness :
  process_transaction (Sample.world [] true) Sample.tracker
    (Sample.transfer Sample.binance_hot Sample.seized
       49999999999 49990000000) = None
  ∧ ∃ r, process_transaction (Sample.world [] true) Sample.tracker
           (Sample.transfer Sample.binance_hot Sample.seized
              50000000000 49990000000) = Some r
         ∧ btc_volume r = PyFloat (true_div 50000000000 satoshi_to_btc).
Proof.
  split.
  - apply (threshold_filter (Sample.world [] true) Sample.tracker
             (Sample.transfer Sample.binance_hot Sample.seized
                49999999999 49990000000) 49999999999).
    + vm_compute. reflexivity.
    + vm_compute. reflexivity.
  - eapply (threshold_filter (Sample.world [] true) Sample.tracker
              (Sample.transfer Sample.binance_hot Sample.seized
                 50000000000 49990000000) 50000000000).
    + vm_compute. reflexivity.
    + vm_compute. reflexivity.
    + vm_compute. reflexivity.
    + vm_compute. reflexivity.
    + vm_compute. reflexivity.
    + vm_compute. discriminate.
Defined.

(** C2 as stated fails: a transfer of 600 BTC whose 'time' is a text is at
    the threshold of 500 BTC and above; every field the classification
    reads is there, the timestamp cannot be computed, and classification
    returns [None]. *)
Lemma whale_with_unreadable_time_is_none :
  let tx := Sample.obj
    [ ("hash", JStr "a1b2c3");
      ("time", JStr "2023-11-14 22:13:20");
      ("inputs", JList [ Sample.obj [ ("prev_out",
         Sample.obj [ ("addr", JStr Sample.binance_hot);
                      ("value", JInt 60000000000) ]) ] ]);
      ("out", JList [ Sample.obj [ ("addr", JStr Sample.seized);
                                   ("value", JInt 59990000000) ] ]) ] in
  total_input tx = Ok 60000000000
  ∧ total_output tx = Ok 59990000000
  ∧ primary_sender tx = Ok (JStr Sample.binance_hot)
  ∧ primary_receiver tx = Ok (JStr Sample.seized)
  ∧ tx_timestamp (Sample.world [] true) tx = Raise TypeError
  ∧ ¬ (true_div 60000000000 satoshi_to_btc < min_btc Sample.tracker)%Q
  ∧ process_transaction (Sample.world [] true) Sample.tracker tx = None.
Proof.
  do 5 (split; [vm_compute; reflexivity|]). split; [|vm_compute; reflexivity].
  apply Qle_not_lt. vm_compute. discriminate.
Qed.

(** ** The fee *)

Lemma true_div_satoshi (z : Z) :
  (true_div z satoshi_to_btc == z # 100000000)%Q.
Proof.
  unfold true_div, satoshi_to_btc, Qeq, Qdiv, Qmult, Qinv, inject_Z. simpl. lia.
Qed.

Lemma true_div_negative (z : Z) : z < 0 → (true_div z satoshi_to_btc < 0)%Q.
Proof. intros Hz. rewrite true_div_satoshi. unfold Qlt. simpl. lia. Qed.

(** C8. The fee of a record of [process_transaction] is the difference of
    the input sum and the output sum, two exact integer sums of satoshi,
    divided by 1e8. It is negative when the outputs exceed the inputs:
    nothing clamps it. The loop of [track_whale_transactions] puts the same
    number in its record, written with eight decimals. *)
Theorem fee_btc_not_clamped (w : World) (self : BitcoinWhaleTracker)
    (tx : json) (r : whale_tx) :
  process_transaction w self tx = Some r →
  ∃ ti to,
    total_input tx = Ok ti
    ∧ total_output tx = Ok to
    ∧ fee_btc r = PyFloat (true_div (ti - to) satoshi_to_btc)
    ∧ (true_div (ti - to) satoshi_to_btc == (ti - to) # 100000000)%Q
    ∧ (ti < to → (true_div (ti - to) satoshi_to_btc < 0)%Q)
    ∧ ∃ r', track_whale_tx w self tx = Ok (Some r')
            ∧ fee_btc r'
              = PyStr (format_8f (true_div (ti - to) satoshi_to_btc)).
Proof.
  intros Hr.
  destruct (process_transaction_inv w self tx r Hr)
    as (ti & to & s & rcv & h & t & Hsteps).
  destruct (steps_process w self tx ti to s rcv h t Hsteps)
    as (r0 & Hr0 & _ & _ & _ & Hfee & _).
  assert (r0 = r) as -> by congruence.
  destruct (steps_track w self tx ti to s rcv h t Hsteps)
    as (r' & Hr' & _ & _ & _ & Hfee' & _).
  exists ti, to. split; [apply Hsteps|]. split; [apply Hsteps|].
  split; [done|]. split; [apply true_div_satoshi|]. split.
  - intros Hlt. apply true_div_negative. lia.
  - by exists r'.
Qed.

Lemma fee_btc_not_clamped_witness :
  let tx := Sample.transfer Sample.binance_hot Sample.seized
              60000000000 60100000000 in
  let r := {| transaction_hash := JStr "a1b2c3";
              timestamp := "2023-11-14 22:13:20";
              btc_volume := PyFloat (true_div 60000000000 satoshi_to_btc);
              fee_btc := PyFloat (true_div (-100000000) satoshi_to_btc);
              sender := JStr Sample.binance_hot;
              receiver := JStr Sample.seized;
              tx_type := "witdrawal" |} in
  ∃ ti to,
    total_input tx = Ok ti
    ∧ total_output tx = Ok to
    ∧ fee_btc r = PyFloat (true_div (ti - to) satoshi_to_btc)
    ∧ (true_div (ti - to) satoshi_to_btc == (ti - to) # 100000000)%Q
    ∧ (ti < to → (true_div (ti - to) satoshi_to_btc < 0)%Q)
    ∧ ∃ r', track_whale_tx (Sample.world [] true) Sample.tracker tx
            = Ok (Some r')
            ∧ fee_btc r'
              = PyStr (format_8f (true_div (ti - to) satoshi_to_btc)).
Proof.
  intros tx r.
  apply (fee_btc_not_clamped (Sample.world [] true) Sample.tracker tx r).
  vm_compute. reflexivity.
Defined.

Example negative_fee_in_the_loop :
  track_whale_tx (Sample.world [] true) Sample.tracker
    (Sample.transfer Sample.binance_hot Sample.seized 60000000000 60100000000)
  = Ok (Some {| transaction_hash := JStr "a1b2c3";
                timestamp := "2023-11-14 22:13:20";
                btc_volume := PyStr "600.00000000";
                fee_btc := PyStr "-1.00000000";
                sender := JStr Sample.binance_hot;
                receiver := JStr Sample.seized;
                tx_type := "WITHDRAWAL" |}).
Proof. vm_compute. reflexivity. Qed.

(** ** The two code paths *)

(** C10, as the code has it. The two code paths accept the same
    transactions: [process_transaction] returns a record exactly when the
    loop of [track_whale_transactions] builds one, and returns [None] where
    the loop skips the transaction or raises. The two records have the same
    hash, timestamp, sender and receiver; the volume and the fee are numbers
    in the first and their eight-decimal renderings in the second; and both
    types name the same rule of the classification, each path with labels of
    its own. *)
Theorem process_and_track_agree (w : World) (self : BitcoinWhaleTracker)
    (tx : json) :
  match process_transaction w self tx, track_whale_tx w self tx with
  | Some r, Ok (Some r') =>
      transaction_hash r = transaction_hash r'
      ∧ timestamp r = timestamp r'
      ∧ sender r = sender r'
      ∧ receiver r = receiver r'
      ∧ (∃ volume fee,
           btc_volume r = PyFloat volume ∧ fee_btc r = PyFloat fee
           ∧ btc_volume r' = PyStr (format_8f volume)
           ∧ fee_btc r' = PyStr (format_8f fee))
      ∧ (∃ t, first_match self (sender r) (receiver r) t
              ∧ tx_type r = process_label t ∧ tx_type r' = loop_label t)
  | None, Ok None => True
  | None, Raise _ => True
  | _, _ => False
  end.
Proof.
  destruct (process_transaction w self tx) as [r|] eqn:Hr.
  - destruct (process_transaction_inv w self tx r Hr)
      as (ti & to & s & rcv & h & t & Hsteps).
    destruct (steps_process w self tx ti to s rcv h t Hsteps)
      as (r0 & Hr0 & Hh & Ht & Hvol & Hfee & Hs & Hrcv & Htype).
    assert (r0 = r) as -> by congruence.
    destruct (steps_track w self tx ti to s rcv h t Hsteps)
      as (r' & -> & Hh' & Ht' & Hvol' & Hfee' & Hs' & Hrcv' & Htype').
    destruct (chain_first_match self s rcv) as (t0 & Hmatch & Hloop & Hproc).
    rewrite Hh, Hh', Ht, Ht', Hs, Hs', Hrcv, Hrcv'.
    do 4 (split; [reflexivity|]). split.
    + exists (true_div ti satoshi_to_btc), (true_div (ti - to) satoshi_to_btc).
      by rewrite Hvol, Hfee, Hvol', Hfee'.
    + exists t0. by rewrite Htype, Htype', Hloop, Hproc.
  - destruct (track_whale_tx w self tx) as [[r'|]|] eqn:Hr'; [|done..].
    destruct (track_whale_tx_inv w self tx r' Hr')
      as (ti & to & s & rcv & h & t & Hsteps).
    destruct (steps_process w self tx ti to s rcv h t Hsteps) as (r & Hr0 & _).
    congruence.
Qed.

(** C10 as stated fails: for the 600 BTC withdrawal from Binance the two
    records differ in the type, in the volume and in the fee. *)
Lemma process_and_track_records_differ :
  let tx := Sample.transfer Sample.binance_hot Sample.seized
              60000000000 59990000000 in
  ∃ r r',
    process_transaction (Sample.world [] true) Sample.tracker tx = Some r
    ∧ track_whale_tx (Sample.world [] true) Sample.tracker tx = Ok (Some r')
    ∧ tx_type r = "witdrawal" ∧ tx_type r' = "WITHDRAWAL"
    ∧ btc_volume r = PyFloat (true_div 60000000000 satoshi_to_btc)
    ∧ btc_volume r' = PyStr "600.00000000"
    ∧ fee_btc r = PyFloat (true_div 10000000 satoshi_to_btc)
    ∧ fee_btc r' = PyStr "0.10000000"
    ∧ r ≠ r'.
Proof.
  eexists _, _. split; [vm_compute; reflexivity|].
  split; [vm_compute; reflexivity|].
  repeat split; [vm_compute; reflexivity..|]. discriminate.
Qed.

(** ** Missing lists *)

Lemma total_output_missing (m : gmap string json) :
  m !! "out" = None → total_output (JObj m) = Ok 0.
Proof. intros Hout. unfold total_output. simpl. by rewrite Hout. Qed.

Lemma total_input_missing (m : gmap string json) :
  m !! "inputs" = None → total_input (JObj m) = Ok 0.
Proof. intros Hin. unfold total_input. simpl. by rewrite Hin. Qed.

Lemma primary_receiver_missing (m : gmap string json) :
  m !! "out" = None → primary_receiver (JObj m) = Raise KeyError.
Proof. intros Hout. unfold primary_receiver. simpl. by rewrite Hout. Qed.

(** A transaction without the key 'out' never gets a record, whatever its
    volume. *)
Lemma process_transaction_missing_out (w : World) (self : BitcoinWhaleTracker)
    (m : gmap string json) :
  m !! "out" = None → process_transaction w self (JObj m) = None.
Proof.
  intros Hout. unfold process_transaction.
  destruct (process_transaction_try w self (JObj m)) as [[r|]|] eqn:Htry;
    [|done..].
  apply process_transaction_try_inv in Htry
    as (ti & to & s & rcv & h & t & [_ _ _ _ Hrcv _ _]).
  by rewrite primary_receiver_missing in Hrcv.
Qed.

(** In the loop it raises as soon as the volume reaches the threshold. *)
Lemma track_whale_tx_missing_out (w : World) (self : BitcoinWhaleTracker)
    (m : gmap string json) (ti : Z) (s : json) :
  m !! "out" = None →
  total_input (JObj m) = Ok ti →
  Qle_bool (min_btc self) (true_div ti satoshi_to_btc) = true →
  primary_sender (JObj m) = Ok s →
  track_whale_tx w self (JObj m) = Raise KeyError.
Proof.
  intros Hout Hti Hle Hs. unfold track_whale_tx.
  rewrite Hti, (total_output_missing m Hout). cbn [mbind result_bind].
  rewrite Hle, Hs. cbn [mbind result_bind].
  by rewrite (primary_receiver_missing m Hout).
Qed.

(** C5 at a transaction of 600 BTC whose output list is missing. Both sums
    take the missing list as empty, but [tx['out'][0]] raises [KeyError]:
    [process_transaction] returns [None], and in the loop of
    [track_whale_transactions] the exception leaves the [for] loop, so the
    whale transaction that follows in the block is not looked at. *)
Lemma missing_outputs_raise :
  let w := Sample.world [] true in
  let tx := Sample.no_outputs Sample.binance_hot 60000000000 in
  let next := Sample.transfer Sample.binance_hot Sample.seized
                60000000000 59990000000 in
  total_input tx = Ok 60000000000
  ∧ total_output tx = Ok 0
  ∧ primary_sender tx = Ok (JStr Sample.binance_hot)
  ∧ primary_receiver tx = Raise KeyError
  ∧ process_transaction w Sample.tracker tx = None
  ∧ track_whale_tx w Sample.tracker tx = Raise KeyError
  ∧ track_whale_transactions w Sample.tracker [tx; next] = ([], Some KeyError)
  ∧ ∃ r, track_whale_transactions w Sample.tracker [next] = ([r], None).
Proof.
  repeat split; try (vm_compute; reflexivity).
  eexists. vm_compute. reflexivity.
Qed.

(** Where the first input or output is there and only its address is
    missing, the sentinel is used. *)
Example missing_addresses_are_unknown :
  let tx := Sample.obj
    [ ("inputs", JList [ Sample.obj [ ("prev_out",
                   Sample.obj [ ("value", JInt 60000000000) ]) ] ]);
      ("out", JList [ Sample.obj [ ("value", JInt 59990000000) ] ]) ] in
  process_transaction (Sample.world [] true) Sample.tracker tx
  = Some {| transaction_hash := JStr "Unknown";
            timestamp := "1970-01-01 00:00:00";
            btc_volume := PyFloat (true_div 60000000000 satoshi_to_btc);
            fee_btc := PyFloat (true_div 10000000 satoshi_to_btc);
            sender := JStr "Unknown";
            receiver := JStr "Unknown";
            tx_type := "alert #bitcoin" |}.
Proof. vm_compute. reflexivity. Qed.

(** ** The DOJ registry: [update_addresses] and [monitor_loop] *)

Section registry.
Context (w : World).
Implicit Types (h : history) (info : addr_info) (a : string).

Lemma scan_block_elem url pattern text info :
  info ∈ scan_block w url pattern text ↔
  ∃ ci, extract_case_info w text = Some ci
        ∧ address info ∈ re_findall w pattern text
        ∧ verify_bitcoin_address w (address info) = true
        ∧ info = {| address := address info; source_url := url;
                    discovery_date := now_iso w; case := ci |}.
Proof.
  unfold scan_block.
  assert (∀ l acc,
    info ∈ foldl (λ found a,
                    if verify_bitcoin_address w a then
                      match extract_case_info w text with
                      | Some ci =>
                          (found ++ [ {| address := a; source_url := url;
                                         discovery_date := now_iso w;
                                         case := ci |} ])%list
                      | None => found
                      end
                    else found) acc l
    ↔ info ∈ acc
      ∨ ∃ ci, extract_case_info w text = Some ci
              ∧ address info ∈ l
              ∧ verify_bitcoin_address w (address info) = true
              ∧ info = {| address := address info; source_url := url;
                          discovery_date := now_iso w; case := ci |}) as Hgen.
  { induction l as [|a l IH]; intros acc; simpl.
    - split; [by left|]. intros [?|(ci & _ & []%elem_of_nil & _)]. done.
    - rewrite IH. clear IH.
      destruct (verify_bitcoin_address w a) eqn:Hv;
        [destruct (extract_case_info w text) as [ci0|] eqn:Hci|].
      + rewrite elem_of_app, list_elem_of_singleton. split.
        * intros [[?| ->]|(ci & ? & ? & ? & ?)].
          -- by left.
          -- right. exists ci0. simpl. repeat split; [by left | done].
          -- right. exists ci. repeat split; [done | by right | done..].
        * intros [?|(ci & Hci' & [Ha|?]%elem_of_cons & ? & Hinfo)].
          -- by left; left.
          -- left; right. rewrite Hinfo, Ha. congruence.
          -- right. by exists ci.
      + split.
        * intros [?|(ci & ? & _)]; [by left | done].
        * intros [?|(ci & ? & _)]; [by left | done].
      + split.
        * intros [?|(ci & ? & ? & ? & ?)]; [by left|].
          right. exists ci. repeat split; [done | by right | done..].
        * intros [?|(ci & ? & [Ha|?]%elem_of_cons & Hv' & ?)]; [by left | |].
          -- congruence.
          -- right. by exists ci. }
  rewrite Hgen. split; [intros [[]%elem_of_nil|?]; done | by right].
Qed.

Lemma scan_doj_page_elem url pattern info :
  info ∈ scan_doj_page w url pattern ↔
  ∃ blocks text, page_blocks w url = Some blocks ∧ text ∈ blocks
                 ∧ info ∈ scan_block w url pattern text.
Proof.
  unfold scan_doj_page. destruct (page_blocks w url) as [blocks|].
  - assert (∀ l acc,
      info ∈ foldl (λ found text,
                      (found ++ scan_block w url pattern text)%list) acc l
      ↔ info ∈ acc ∨ ∃ text, text ∈ l ∧ info ∈ scan_block w url pattern text)
      as Hgen.
    { induction l as [|text l IH]; intros acc; simpl.
      - split; [by left|]. intros [?|(? & []%elem_of_nil & _)]. done.
      - rewrite IH, elem_of_app. clear IH. split.
        + intros [[?|?]|(text' & ? & ?)]; [by left | right..].
          * exists text. split; [by left | done].
          * exists text'. split; [by right | done].
        + intros [?|(text' & [->|?]%elem_of_cons & ?)].
          * by left; left.
          * by left; right.
          * right. by exists text'. }
    rewrite Hgen. split.
    + intros [[]%elem_of_nil|(text & ? & ?)]. by exists blocks, text.
    + intros (blocks' & text & [= <-] & ? & ?). right. by exists text.
  - split; [intros []%elem_of_nil | intros (? & ? & ? & _); done].
Qed.

Lemma found_in_cycle_elem info :
  info ∈ found_in_cycle w ↔
  ∃ src, src ∈ sources ∧ info ∈ scan_doj_page w src.2.1 src.2.2.
Proof.
  unfold found_in_cycle. rewrite list_elem_of_join. split.
  - intros (l & Hinfo & (src & -> & Hsrc)%list_elem_of_fmap). by exists src.
  - intros (src & Hsrc & Hinfo). eexists. split; [exact Hinfo|].
    apply list_elem_of_fmap. by exists src.
Qed.

(** *** The history *)

Lemma record_if_absent_lookup h info a :
  addresses (record_if_absent h info) !! a
  = match addresses h !! a with
    | Some old => Some old
    | None => if decide (address info = a) then Some info else None
    end.
Proof.
  unfold record_if_absent.
  destruct (addresses h !! address info) as [old|] eqn:Hold; simpl.
  - destruct (addresses h !! a) eqn:Ha; [done|].
    case_decide; [congruence | done].
  - rewrite lookup_insert. case_decide as Heq.
    + by rewrite <- Heq, Hold.
    + by destruct (addresses h !! a).
Qed.

Lemma record_all_kept (l : list addr_info) : ∀ h a old,
  addresses h !! a = Some old →
  addresses (foldl record_if_absent h l) !! a = Some old.
Proof.
  induction l as [|info l IH]; intros h a old Hold; [done|].
  simpl. apply IH. by rewrite record_if_absent_lookup, Hold.
Qed.

Lemma record_all_frame (l : list addr_info) : ∀ h a,
  a ∉ address <$> l →
  addresses (foldl record_if_absent h l) !! a = addresses h !! a.
Proof.
  induction l as [|info l IH]; intros h a Ha; [done|].
  rewrite fmap_cons, not_elem_of_cons in Ha. destruct Ha as [Hne Ha].
  simpl. rewrite IH, record_if_absent_lookup by done.
  destruct (addresses h !! a); [done|]. case_decide; congruence.
Qed.

Lemma record_all_origin (l : list addr_info) : ∀ h a info,
  addresses (foldl record_if_absent h l) !! a = Some info →
  addresses h !! a = Some info
  ∨ (addresses h !! a = None ∧ info ∈ l ∧ address info = a).
Proof.
  induction l as [|info0 l IH]; intros h a info Hinfo; [by left|].
  simpl in Hinfo. apply IH in Hinfo as [Hinfo|(Hnone & Hin & Ha)].
  - rewrite record_if_absent_lookup in Hinfo.
    destruct (addresses h !! a); [by left|].
    case_decide as Heq; [|done]. injection Hinfo as <-.
    right. split; [done|]. split; [by left | done].
  - rewrite record_if_absent_lookup in Hnone.
    destruct (addresses h !! a); [done|].
    right. repeat split; [by right | done].
Qed.

Lemma update_addresses_eq (self : DOJAddressMonitor) :
  update_addresses w self
  = ({| address_history :=
          {| last_update := Some (now_iso w);
             addresses :=
               addresses (foldl record_if_absent (address_history self)
                            (found_in_cycle w)) |} |},
     if disk_writable w
     then Ok ((λ src : string * (string * string),
                 (src.1, scan_doj_page w src.2.1 src.2.2)) <$> sources)
     else Raise OSError).
Proof.
  unfold update_addresses, found_in_cycle, sources. simpl.
  by rewrite app_nil_r, foldl_app.
Qed.

Lemma monitor_loop_recorded (self : BitcoinWhaleTracker) :
  recorded (monitor_loop w self)
  = addresses (foldl record_if_absent (address_history (doj_monitor self))
                 (found_in_cycle w)).
Proof. unfold recorded, monitor_loop. by rewrite update_addresses_eq. Qed.

Lemma monitor_loop_doj (self : BitcoinWhaleTracker) a :
  a ∈ doj_addresses (monitor_loop w self) ↔
  a ∈ doj_addresses self
  ∨ (disk_writable w = true ∧ a ∈ address <$> found_in_cycle w).
Proof.
  unfold monitor_loop. rewrite update_addresses_eq.
  destruct (disk_writable w); simpl.
  - rewrite elem_of_elements, elem_of_list_to_set, elem_of_app.
    unfold found_in_cycle, sources. simpl.
    rewrite !app_nil_r, fmap_app. naive_solver.
  - naive_solver.
Qed.

End registry.

Lemma monitor_loops_kept (ws : list World) : ∀ (self : BitcoinWhaleTracker) a old,
  recorded self !! a = Some old →
  recorded (monitor_loops ws self) !! a = Some old.
Proof.
  induction ws as [|w ws IH]; intros self a old Hold; [done|].
  simpl. apply IH. rewrite monitor_loop_recorded. by apply record_all_kept.
Qed.

(** C7. Recording an address that is not yet a key, and then recording the
    same address with another case info, keeps the first: the second call
    changes nothing. And whatever the history holds for an address, it still
    holds after any number of later cycles. *)
Theorem history_write_once (h : history) (first later : addr_info) :
  addresses h !! address first = None →
  address later = address first →
  addresses (record_if_absent (record_if_absent h first) later)
    !! address first = Some first
  ∧ record_if_absent (record_if_absent h first) later
    = record_if_absent h first
  ∧ ∀ (ws : list World) (self : BitcoinWhaleTracker) a info,
      recorded self !! a = Some info →
      recorded (monitor_loops ws self) !! a = Some info.
Proof.
  intros Hnone Hsame.
  assert (addresses (record_if_absent h first) !! address first = Some first)
    as Hfirst.
  { rewrite record_if_absent_lookup, Hnone. by case_decide. }
  assert (record_if_absent (record_if_absent h first) later
          = record_if_absent h first) as Hagain.
  { unfold record_if_absent at 1. by rewrite Hsame, Hfirst. }
  split; [by rewrite Hagain|]. split; [done|].
  intros ws self a info. apply monitor_loops_kept.
Qed.

Lemma history_write_once_witness :
  addresses (record_if_absent (record_if_absent empty_history Sample.first_case)
               Sample.later_case) !! Sample.seized
  = Some Sample.first_case
  ∧ record_if_absent (record_if_absent empty_history Sample.first_case)
      Sample.later_case
    = record_if_absent empty_history Sample.first_case
  ∧ ∀ (ws : list World) (self : BitcoinWhaleTracker) a info,
      recorded self !! a = Some info →
      recorded (monitor_loops ws self) !! a = Some info.
Proof.
  apply (history_write_once empty_history Sample.first_case Sample.later_case).
  - reflexivity.
  - reflexivity.
Defined.

Example restarted_keeps_first_case :
  recorded (monitor_loop (Sample.world [Sample.press_release] true)
              Sample.restarted) !! Sample.seized
  = Some Sample.first_case.
Proof. vm_compute. reflexivity. Qed.

(** ** What a cycle merges *)

(** C6, as the code has it. After a cycle the government bucket holds what
    it held before and, when the cycle completed, every address the scan
    found, whether or not the history already had it as a key. It is the
    write into the history that is kept for new addresses: an entry of the
    history after the cycle is the entry from before, or, for an address that
    was not a key, a record found in this cycle. *)
Theorem doj_bucket_after_cycle (w : World) (self : BitcoinWhaleTracker)
    (a : string) :
  (a ∈ doj_addresses (monitor_loop w self) ↔
   a ∈ doj_addresses self
   ∨ (disk_writable w = true
      ∧ ∃ info, info ∈ found_in_cycle w ∧ address info = a))
  ∧ (∀ info,
       recorded (monitor_loop w self) !! a = Some info →
       recorded self !! a = Some info
       ∨ (recorded self !! a = None
          ∧ info ∈ found_in_cycle w ∧ address info = a)).
Proof.
  split.
  - rewrite monitor_loop_doj, list_elem_of_fmap. naive_solver.
  - intros info. rewrite monitor_loop_recorded. apply record_all_origin.
Qed.

(** C6 as stated fails. A tracker is started with a history that has
    [seized] as a key; the page still shows the address, with a case number.
    The cycle records nothing new for it and merges it into the bucket all
    the same. *)
Lemma known_address_is_merged :
  let w := Sample.world [Sample.press_release] true in
  recorded Sample.restarted !! Sample.seized = Some Sample.first_case
  ∧ recorded (monitor_loop w Sample.restarted) = recorded Sample.restarted
  ∧ (Sample.seized ∉ doj_addresses Sample.restarted)
  ∧ Sample.seized ∈ doj_addresses (monitor_loop w Sample.restarted).
Proof.
  split; [vm_compute; reflexivity|]. split; [vm_compute; reflexivity|].
  split.
  - apply not_elem_of_nil.
  - replace (doj_addresses _) with [Sample.seized]
      by (vm_compute; reflexivity).
    by left.
Qed.

(** ** Candidates without case information *)

Lemma extract_case_info_none (w : World) (text : string) :
  extract_case_info w text = None ↔ no_case_field w text.
Proof.
  unfold extract_case_info, no_case_field. simpl. split.
  - intros Hnone pattern Hin.
    destruct (re_search_group1 w case_number_pattern text) eqn:H1; [done|].
    destruct (re_search_group1 w filing_date_pattern text) eqn:H2; [done|].
    destruct (re_search_group1 w district_pattern text) eqn:H3; [done|].
    destruct (re_search_group1 w amount_pattern text) eqn:H4; [done|].
    repeat (apply elem_of_cons in Hin as [->|Hin]; [done|]).
    by apply elem_of_nil in Hin.
  - intros Hnone.
    rewrite !Hnone; [done|..]; repeat constructor.
Qed.

(** C9. Let every text block of the monitored pages in which the address
    [a] occurs have none of the four case fields. Then the cycle drops the
    candidate: [a] is not among the addresses found, the history has for [a]
    what it had before, and [a] is in the government bucket after the cycle
    exactly if it was there before. *)
Theorem candidate_without_case_info_dropped (w : World)
    (self : BitcoinWhaleTracker) (a : string) :
  (∀ src blocks text,
     src ∈ sources → page_blocks w src.2.1 = Some blocks → text ∈ blocks →
     a ∈ re_findall w src.2.2 text → no_case_field w text) →
  (a ∉ address <$> found_in_cycle w)
  ∧ recorded (monitor_loop w self) !! a = recorded self !! a
  ∧ (a ∈ doj_addresses (monitor_loop w self) ↔ a ∈ doj_addresses self).
Proof.
  intros Hbare.
  assert (a ∉ address <$> found_in_cycle w) as Hnot.
  { intros (info & -> & (src & Hsrc & Hinfo)%found_in_cycle_elem)%list_elem_of_fmap.
    apply scan_doj_page_elem in Hinfo as (blocks & text & Hpage & Htext & Hinfo).
    apply scan_block_elem in Hinfo as (ci & Hci & Hfound & _).
    apply (Hbare src blocks text Hsrc Hpage Htext), extract_case_info_none
      in Hfound.
    congruence. }
  split; [done|]. split.
  - rewrite monitor_loop_recorded. by apply record_all_frame.
  - rewrite monitor_loop_doj. naive_solver.
Qed.

Lemma candidate_without_case_info_dropped_witness :
  let w := Sample.world [Sample.bare_mention] true in
  (Sample.seized ∉ address <$> found_in_cycle w)
  ∧ recorded (monitor_loop w Sample.tracker) !! Sample.seized
    = recorded Sample.tracker !! Sample.seized
  ∧ (Sample.seized ∈ doj_addresses (monitor_loop w Sample.tracker)
     ↔ Sample.seized ∈ doj_addresses Sample.tracker).
Proof.
  apply (candidate_without_case_info_dropped
           (Sample.world [Sample.bare_mention] true) Sample.tracker
           Sample.seized).
  intros src blocks text Hsrc Hpage Htext _ pattern _.
  assert (text = Sample.bare_mention) as ->.
  { simpl in Hpage. case_bool_decide; injection Hpage as <-.
    - by apply list_elem_of_singleton in Htext.
    - by apply elem_of_nil in Htext. }
  simpl. by rewrite andb_false_r.
Defined.

Example bare_mention_changes_nothing :
  let w := Sample.world [Sample.bare_mention] true in
  found_in_cycle w = []
  ∧ recorded (monitor_loop w Sample.tracker) = recorded Sample.tracker
  ∧ doj_addresses (monitor_loop w Sample.tracker)
    = doj_addresses Sample.tracker.
Proof. repeat split; vm_compute; reflexivity. Qed.

Example format_2f_ex :
  format_2f true (to_float (true_div 123456789012 100)) = "1,234,567,890.12"
  ∧ format_2f true (to_float (true_div 99912 100)) = "999.12"
  ∧ format_2f false (to_float (true_div 60000000000 satoshi_to_btc)) = "600.00"
  ∧ format_2f false (to_float (true_div 10002500000 satoshi_to_btc)) = "100.03"
  ∧ format_2f true (to_float (1 # 8)) = "0.12"
  ∧ format_2f true (to_float (true_div (-123456) 100)) = "-1,234.56"
  ∧ format_2f true (float_mul (to_float (true_div (-5) 1000)) (to_float 0))
    = "-0.00".
Proof. repeat split; vm_compute; reflexivity. Qed.

(** [0.1 + 0.2] is not [0.3]. *)
Example float_add_ex :
  float_add (to_float (1 # 10)) (to_float (2 # 10))
  = to_float (30000000000000004 # 100000000000000000)
  ∧ float_add (to_float (1 # 10)) (to_float (2 # 10)) ≠ to_float (3 # 10).
Proof. split; vm_compute; [reflexivity | discriminate]. Qed.

(** * Further properties of the code *)

(** ** The block cursor over any sequence of answers *)

Lemma get_latest_block_size (self : BitcoinWhaleTracker)
    (block_data : option (Z * string)) :
  (size (processed_blocks self) ≤ 1001)%nat →
  (size (processed_blocks (get_latest_block self block_data).1) ≤ 1001)%nat.
Proof.
  intros Hsize. destruct block_data as [[height hash]|]; [|done].
  destruct (last_block_height self) as [base|] eqn:Hbase.
  - destruct (decide (hash ∈ processed_blocks self)) as [Hin|Hnew].
    { by rewrite (get_latest_block_seen self base height hash). }
    destruct (decide (base < height)) as [Hlt|Hge].
    + destruct (get_latest_block_new self base height hash Hbase Hnew Hlt)
        as (_ & _ & -> & _).
      case_bool_decide.
      * rewrite (left_id_L ∅ (∪)), size_singleton. lia.
      * rewrite size_union, size_singleton; [lia|].
        by apply disjoint_singleton_r.
    + rewrite (get_latest_block_stale self base height hash); [done..|lia].
  - by destruct (get_latest_block_bootstrap self height hash Hbase)
      as (_ & _ & ->).
Qed.

(** X1. The set of processed hashes never holds more than 1001 entries:
    a tracker whose set is within that bound stays within it, whatever the
    provider answers and however often it is polled. *)
Theorem processed_blocks_bounded (self : BitcoinWhaleTracker)
    (answers : list (Z * string)) :
  (size (processed_blocks self) ≤ 1001)%nat →
  (size (processed_blocks (poll self answers).1) ≤ 1001)%nat.
Proof.
  revert self. induction answers as [|block_data rest IH]; intros self Hsize.
  - done.
  - rewrite poll_cons. cbn [fst]. apply IH. by apply get_latest_block_size.
Qed.

Lemma processed_blocks_bounded_witness :
  (size (processed_blocks
           (poll (init 500 empty_history) (chain 0 3000)).1) ≤ 1001)%nat.
Proof.
  apply (processed_blocks_bounded (init 500 empty_history) (chain 0 3000)).
  change (size (∅ : gset string) ≤ 1001)%nat. rewrite size_empty. lia.
Defined.

Lemma get_latest_block_returned (self : BitcoinWhaleTracker) (height : Z)
    (hash r : string) :
  (get_latest_block self (Some (height, hash))).2 = Some r →
  r = hash
  ∧ last_block_height (get_latest_block self (Some (height, hash))).1
    = Some height
  ∧ ∀ base, last_block_height self = Some base → base < height.
Proof.
  intros Hr.
  destruct (last_block_height self) as [base|] eqn:Hbase.
  - destruct (decide (hash ∈ processed_blocks self)) as [Hin|Hnew].
    { by rewrite (get_latest_block_seen self base height hash) in Hr. }
    destruct (decide (base < height)) as [Hlt|Hge].
    + destruct (get_latest_block_new self base height hash Hbase Hnew Hlt)
        as (Hret & Hh & _).
      rewrite Hret in Hr. injection Hr as <-.
      split; [done|]. split; [done|]. by intros ? [= <-].
    + rewrite (get_latest_block_stale self base height hash) in Hr;
        [done..|lia].
  - destruct (get_latest_block_bootstrap self height hash Hbase)
      as (Hret & Hh & _).
    rewrite Hret in Hr. injection Hr as <-. done.
Qed.

(** Once a height is recorded, no call lowers or forgets it. *)
Lemma get_latest_block_height_mono (self : BitcoinWhaleTracker)
    (block_data : option (Z * string)) (base : Z) :
  last_block_height self = Some base →
  ∃ base', last_block_height (get_latest_block self block_data).1 = Some base'
           ∧ base ≤ base'.
Proof.
  intros Hbase. destruct block_data as [[height hash]|];
    [|exists base; by split].
  destruct (decide (hash ∈ processed_blocks self)) as [Hin|Hnew].
  { rewrite (get_latest_block_seen self base height hash) by done.
    exists base. by split. }
  destruct (decide (base < height)) as [Hlt|Hge].
  - destruct (get_latest_block_new self base height hash Hbase Hnew Hlt)
      as (_ & Hh & _).
    exists height. split; [done | lia].
  - rewrite (get_latest_block_stale self base height hash); [|done|lia].
    exists base. by split.
Qed.

Lemma poll_returned_above (answers : list (Z * string)) :
  ∀ (self : BitcoinWhaleTracker) base (j : nat) hj xj rj,
    last_block_height self = Some base →
    answers !! j = Some (hj, xj) →
    (poll self answers).2 !! j = Some (Some rj) →
    base < hj ∧ rj = xj.
Proof.
  induction answers as [|[height hash] rest IH];
    intros self base j hj xj rj Hbase Hj Hr; [done|].
  rewrite poll_cons in Hr. cbn [snd] in Hr.
  remember (get_latest_block self (Some (height, hash))) as step eqn:Hstep.
  destruct j as [|j]; simpl in Hj, Hr.
  - injection Hj as -> ->. injection Hr as Hr. rewrite Hstep in Hr.
    apply get_latest_block_returned in Hr as (-> & _ & Habove).
    split; [by apply Habove | done].
  - destruct (get_latest_block_height_mono self (Some (height, hash)) base
                Hbase) as (base' & Hbase' & Hle).
    rewrite <- Hstep in Hbase'.
    destruct (IH _ base' j hj xj rj Hbase' Hj Hr) as [Hlt ->].
    split; [lia | done].
Qed.

(** X2. However the provider answers, the blocks [get_latest_block] returns
    have strictly growing heights, and what it returns is the hash it was
    just given: no height is handed out for processing twice, before or
    after a flush of the set. *)
Theorem poll_heights_increase (answers : list (Z * string)) :
  ∀ (self : BitcoinWhaleTracker) (i j : nat) hi xi hj xj ri rj,
    (i < j)%nat →
    answers !! i = Some (hi, xi) →
    answers !! j = Some (hj, xj) →
    (poll self answers).2 !! i = Some (Some ri) →
    (poll self answers).2 !! j = Some (Some rj) →
    ri = xi ∧ rj = xj ∧ hi < hj.
Proof.
  induction answers as [|[height hash] rest IH];
    intros self i j hi xi hj xj ri rj Hij Hi Hj Hri Hrj; [done|].
  rewrite poll_cons in Hri, Hrj. cbn [snd] in Hri, Hrj.
  remember (get_latest_block self (Some (height, hash))) as step eqn:Hstep.
  destruct j as [|j]; [lia|]. simpl in Hj, Hrj.
  destruct i as [|i]; simpl in Hi, Hri.
  - injection Hi as -> ->. injection Hri as Hri. rewrite Hstep in Hri.
    apply get_latest_block_returned in Hri as (-> & Hh & _).
    rewrite <- Hstep in Hh.
    destruct (poll_returned_above rest _ hi j hj xj rj Hh Hj Hrj) as [Hlt ->].
    done.
  - apply (IH step.1 i j hi xi hj xj ri rj); [lia | done..].
Qed.

Lemma poll_heights_increase_witness :
  "b1" = "b1" ∧ "b3" = "b3" ∧ 100 < 102.
Proof.
  apply (poll_heights_increase
           [(100, "b1"); (101, "b2"); (101, "b2x"); (102, "b3")]
           (init 500 empty_history) 0 3 100 "b1" 102 "b3" "b1" "b3").
  - lia.
  - reflexivity.
  - reflexivity.
  - vm_compute. reflexivity.
  - vm_compute. reflexivity.
Defined.

(** ** Sums of values *)

Lemma py_sum_raised (f : json → result json) (items : list json) (e : exn) :
  foldl (λ acc it, a ← acc; v ← f it; py_add a v) (Raise e) items = Raise e.
Proof. induction items as [|it items IH]; [done|]. simpl. apply IH. Qed.

Lemma py_add_int (acc : Z) (v : json) (total : Z) :
  py_add acc v = Ok total ↔ ∃ z, int_of v = Some z ∧ total = acc + z.
Proof.
  destruct v; simpl;
    (split; [intros [= <-]; eauto | intros (z' & Hz & ->); by simplify_eq]).
Qed.

Lemma py_sum_from (f : json → result json) (items : list json) :
  ∀ acc total,
    foldl (λ acc it, a ← acc; v ← f it; py_add a v) (Ok acc) items = Ok total
    ↔ ∃ values,
        Forall2 (λ it z, ∃ v, f it = Ok v ∧ int_of v = Some z) items values
        ∧ total = acc + foldr Z.add 0 values.
Proof.
  induction items as [|it items IH]; intros acc total.
  - simpl. split.
    + intros [= <-]. exists []. split; [constructor | simpl; lia].
    + intros (values & ->%Forall2_nil_inv_l & ->). simpl. f_equal. lia.
  - cbn [foldl mbind result_bind].
    destruct (f it) as [v|e] eqn:Hv; cbn [mbind result_bind].
    + destruct (py_add acc v) as [acc'|e] eqn:Hadd.
      * apply py_add_int in Hadd as (z & Hz & ->). rewrite IH. split.
        -- intros (values & Hall & ->). exists (z :: values).
           split; [constructor; eauto | simpl; lia].
        -- intros (values & Hall & ->).
           apply Forall2_cons_inv_l in Hall
             as (z' & values' & (v' & Hv' & Hz') & Hall & ->).
           assert (z' = z) as -> by congruence.
           exists values'. split; [done | simpl; lia].
      * rewrite py_sum_raised. split; [done|].
        intros (values & Hall & _).
        apply Forall2_cons_inv_l in Hall
          as (z' & values' & (v' & Hv' & Hz') & _ & _).
        assert (v' = v) as -> by congruence.
        assert (py_add acc v = Ok (acc + z')) as Hok
          by (apply py_add_int; eauto).
        congruence.
    + rewrite py_sum_raised. split; [done|].
      intros (values & Hall & _).
      apply Forall2_cons_inv_l in Hall
        as (z' & values' & (v' & Hv' & _) & _ & _).
      congruence.
Qed.

Lemma total_input_list (m : gmap string json) (items : list json) (total : Z) :
  m !! "inputs" = Some (JList items) →
  total_input (JObj m) = Ok total ↔
  ∃ values,
    Forall2 (λ it z, ∃ v, input_value it = Ok v ∧ int_of v = Some z)
      items values
    ∧ total = foldr Z.add 0 values.
Proof.
  intros Hinputs. unfold total_input. simpl. rewrite Hinputs. simpl.
  unfold py_sum. rewrite py_sum_from. by setoid_rewrite Z.add_0_l.
Qed.

(** X3. What the input sum is when the values are integers. For a
    transaction whose 'inputs' is a list of dicts, each with a 'prev_out'
    that is a dict or missing and a 'value' that is an integer or missing,
    the sum is the sum of these integers, an input without 'prev_out' or
    without 'value' counting as 0. *)
Theorem total_input_is_sum (m : gmap string json) (items : list json)
    (values : list Z) :
  m !! "inputs" = Some (JList items) →
  Forall2 (λ it z, ∃ v, input_value it = Ok v ∧ int_of v = Some z)
    items values →
  total_input (JObj m) = Ok (foldr Z.add 0 values)
  ∧ (∀ i : gmap string json,
       i !! "prev_out" = None → input_value (JObj i) = Ok (JInt 0))
  ∧ (∀ i p : gmap string json,
       i !! "prev_out" = Some (JObj p) → p !! "value" = None →
       input_value (JObj i) = Ok (JInt 0)).
Proof.
  intros Hinputs Hall. split; [|split].
  - apply (total_input_list m items _ Hinputs). by exists values.
  - intros i Hi. unfold input_value. simpl. by rewrite Hi.
  - intros i p Hi Hp. unfold input_value. simpl. rewrite Hi. simpl.
    by rewrite Hp.
Qed.

Lemma total_input_is_sum_witness :
  total_input
    (Sample.obj [ ("inputs", JList
       [ Sample.obj [ ("prev_out", Sample.obj [ ("value", JInt 250) ]) ];
         Sample.obj [ ("sequence", JInt 7) ];
         Sample.obj [ ("prev_out", Sample.obj [ ("addr", JStr "1abc") ]) ];
         Sample.obj [ ("prev_out", Sample.obj [ ("value", JInt 50) ]) ] ]) ])
  = Ok (foldr Z.add 0 [250; 0; 0; 50]).
Proof.
  eapply (total_input_is_sum _ _ [250; 0; 0; 50]).
  - vm_compute. reflexivity.
  - repeat constructor; eexists; (split; [vm_compute; reflexivity|reflexivity]).
Defined.

(** X4. A value that is not a number makes the whole classification fail:
    when some input of the list is not of the shape above (its value is a
    string, a list or null, or the input is not a dict), the sum raises,
    [process_transaction] returns [None] and the loop of
    [track_whale_transactions] raises, whatever the other inputs hold. *)
Theorem non_numeric_value_fails (w : World) (self : BitcoinWhaleTracker)
    (m : gmap string json) (items : list json) (bad : json) :
  m !! "inputs" = Some (JList items) →
  bad ∈ items →
  (∀ v, input_value bad = Ok v → int_of v = None) →
  ∃ e, total_input (JObj m) = Raise e
       ∧ process_transaction w self (JObj m) = None
       ∧ track_whale_tx w self (JObj m) = Raise e.
Proof.
  intros Hinputs Hbad Hnot.
  destruct (total_input (JObj m)) as [total|e] eqn:Htotal.
  - apply (total_input_list m items total Hinputs) in Htotal
      as (values & Hall & _).
    apply list_elem_of_lookup in Hbad as [i Hi].
    destruct (Forall2_lookup_l _ _ _ _ _ Hall Hi) as (z & _ & v & Hv & Hz).
    apply Hnot in Hv. congruence.
  - exists e. split; [done|].
    unfold process_transaction, process_transaction_try, track_whale_tx.
    by rewrite Htotal.
Qed.

Lemma non_numeric_value_fails_witness :
  let tx := Sample.obj [ ("inputs", JList
       [ Sample.obj [ ("prev_out", Sample.obj [ ("value", JInt 60000000000) ]) ];
         Sample.obj [ ("prev_out", Sample.obj [ ("value", JStr "12") ]) ] ]);
       ("out", JList []) ] in
  ∃ e, total_input tx = Raise e
       ∧ process_transaction (Sample.world [] true) Sample.tracker tx = None
       ∧ track_whale_tx (Sample.world [] true) Sample.tracker tx = Raise e.
Proof.
  eapply (non_numeric_value_fails (Sample.world [] true) Sample.tracker _ _
            (Sample.obj [ ("prev_out", Sample.obj [ ("value", JStr "12") ]) ])).
  - vm_compute. reflexivity.
  - right. left.
  - intros v Hv. vm_compute in Hv. by injection Hv as <-.
Defined.

(** ** The volume of a record *)

(** X5. Every record carries the volume of its transaction: the record of
    [process_transaction] holds the input sum divided by 1e8, which is at
    least the threshold, and the record the loop builds for the same
    transaction holds that number written with eight decimals. *)
Theorem record_volume (w : World) (self : BitcoinWhaleTracker) (tx : json)
    (r : whale_tx) :
  process_transaction w self tx = Some r →
  ∃ ti,
    total_input tx = Ok ti
    ∧ btc_volume r = PyFloat (true_div ti satoshi_to_btc)
    ∧ (true_div ti satoshi_to_btc == ti # 100000000)%Q
    ∧ (min_btc self <= true_div ti satoshi_to_btc)%Q
    ∧ ∃ r', track_whale_tx w self tx = Ok (Some r')
            ∧ btc_volume r' = PyStr (format_8f (true_div ti satoshi_to_btc)).
Proof.
  intros Hr.
  destruct (process_transaction_inv w self tx r Hr)
    as (ti & to & s & rcv & h & t & Hsteps).
  destruct (steps_process w self tx ti to s rcv h t Hsteps)
    as (r0 & Hr0 & _ & _ & Hvol & _).
  assert (r0 = r) as -> by congruence.
  destruct (steps_track w self tx ti to s rcv h t Hsteps)
    as (r' & Hr' & _ & _ & Hvol' & _).
  exists ti. split; [apply Hsteps|]. split; [done|].
  split; [apply true_div_satoshi|]. split.
  - apply Qle_bool_iff, Hsteps.
  - by exists r'.
Qed.

Lemma record_volume_witness :
  let tx := Sample.transfer Sample.binance_hot Sample.seized
              60000000000 59990000000 in
  let r := {| transaction_hash := JStr "a1b2c3";
              timestamp := "2023-11-14 22:13:20";
              btc_volume := PyFloat (true_div 60000000000 satoshi_to_btc);
              fee_btc := PyFloat (true_div 10000000 satoshi_to_btc);
              sender := JStr Sample.binance_hot;
              receiver := JStr Sample.seized;
              tx_type := "witdrawal" |} in
  ∃ ti,
    total_input tx = Ok ti
    ∧ btc_volume r = PyFloat (true_div ti satoshi_to_btc)
    ∧ (true_div ti satoshi_to_btc == ti # 100000000)%Q
    ∧ (min_btc Sample.tracker <= true_div ti satoshi_to_btc)%Q
    ∧ ∃ r', track_whale_tx (Sample.world [] true) Sample.tracker tx
            = Ok (Some r')
            ∧ btc_volume r' = PyStr (format_8f (true_div ti satoshi_to_btc)).
Proof.
  intros tx r.
  apply (record_volume (Sample.world [] true) Sample.tracker tx r).
  vm_compute. reflexivity.
Defined.

(** ** Transactions without inputs *)

Lemma true_div_zero : (true_div 0 satoshi_to_btc == 0)%Q.
Proof. reflexivity. Qed.

(** X6. A transaction that has no 'inputs' key has volume 0 and
    [process_transaction] returns [None] for it. In the loop, when its
    outputs cannot be summed the sum's exception is raised; when they can,
    a positive threshold makes the loop skip it without raising, and a
    threshold of 0 or less makes it a whale whose first input is read,
    which raises [KeyError]. *)
Theorem transaction_without_inputs (w : World) (self : BitcoinWhaleTracker)
    (m : gmap string json) :
  m !! "inputs" = None →
  process_transaction w self (JObj m) = None
  ∧ match total_output (JObj m) with
    | Raise e => track_whale_tx w self (JObj m) = Raise e
    | Ok _ =>
        ((0 < min_btc self)%Q → track_whale_tx w self (JObj m) = Ok None)
        ∧ ((min_btc self <= 0)%Q →
           track_whale_tx w self (JObj m) = Raise KeyError)
    end.
Proof.
  intros Hin.
  assert (primary_sender (JObj m) = Raise KeyError) as Hs.
  { unfold primary_sender. simpl. by rewrite Hin. }
  split.
  - unfold process_transaction, process_transaction_try.
    rewrite (total_input_missing m Hin). cbn [mbind result_bind].
    destruct (total_output (JObj m)); [|done]. cbn [mbind result_bind].
    destruct (Qle_bool _ _); [|done]. by rewrite Hs.
  - destruct (total_output (JObj m)) as [to|e] eqn:Hto.
    + assert (track_whale_tx w self (JObj m)
              = if Qle_bool (min_btc self) (true_div 0 satoshi_to_btc)
                then Raise KeyError else Ok None) as Htrack.
      { unfold track_whale_tx.
        rewrite (total_input_missing m Hin), Hto. cbn [mbind result_bind].
        destruct (Qle_bool _ _); [|done]. by rewrite Hs. }
      split.
      * intros Hpos. rewrite Htrack.
        destruct (Qle_bool _ _) eqn:Hle; [|done].
        apply Qle_bool_iff in Hle. rewrite true_div_zero in Hle.
        by apply Qlt_not_le in Hpos.
      * intros Hneg. rewrite Htrack.
        destruct (Qle_bool _ _) eqn:Hle; [done|].
        apply Qle_bool_false in Hle. rewrite true_div_zero in Hle.
        by apply Qlt_not_le in Hle.
    + unfold track_whale_tx.
      by rewrite (total_input_missing m Hin), Hto.
Qed.

Lemma transaction_without_inputs_witness :
  let m : gmap string json :=
    list_to_map
      [ ("hash", JStr "c0ffee");
        ("out", JList [ Sample.obj [ ("value", JInt 625000000) ] ]) ] in
  let m' : gmap string json :=
    list_to_map [ ("hash", JStr "c0ffee"); ("out", JNull) ] in
  process_transaction (Sample.world [] true) Sample.tracker (JObj m) = None
  ∧ track_whale_tx (Sample.world [] true) Sample.tracker (JObj m) = Ok None
  ∧ track_whale_tx (Sample.world [] true) (init 0 empty_history) (JObj m)
    = Raise KeyError
  ∧ track_whale_tx (Sample.world [] true) Sample.tracker (JObj m')
    = Raise TypeError.
Proof.
  intros m m'.
  destruct (transaction_without_inputs (Sample.world [] true) Sample.tracker
              m eq_refl) as (Hp & Hpos & _).
  destruct (transaction_without_inputs (Sample.world [] true)
              (init 0 empty_history) m eq_refl) as (_ & _ & Hneg).
  pose proof (transaction_without_inputs (Sample.world [] true) Sample.tracker
                m' eq_refl) as (_ & Hnull).
  split; [exact Hp|]. split; [|split].
  - apply Hpos. reflexivity.
  - apply Hneg. discriminate.
  - exact Hnull.
Defined.

(** ** The loop over a block *)

Lemma track_vs_process (w : World) (self : BitcoinWhaleTracker) (tx : json) :
  match track_whale_tx w self tx with
  | Ok (Some r') =>
      ∃ r, process_transaction w self tx = Some r ∧ same_parties r r'
  | _ => process_transaction w self tx = None
  end.
Proof.
  destruct (track_whale_tx w self tx) as [[r'|]|e] eqn:Hr'.
  - destruct (track_whale_tx_inv w self tx r' Hr')
      as (ti & to & s & rcv & h & t & Hsteps).
    destruct (steps_process w self tx ti to s rcv h t Hsteps)
      as (r & Hr & Hh & Ht & _ & _ & Hs & Hrcv & _).
    destruct (steps_track w self tx ti to s rcv h t Hsteps)
      as (r0 & Hr0 & Hh' & Ht' & _ & _ & Hs' & Hrcv' & _).
    assert (r0 = r') as -> by congruence.
    exists r. split; [done|]. unfold same_parties. by rewrite Hh, Ht, Hs, Hrcv.
  - destruct (process_transaction w self tx) as [r|] eqn:Hr; [|done].
    destruct (process_transaction_inv w self tx r Hr)
      as (ti & to & s & rcv & h & t & Hsteps).
    destruct (steps_track w self tx ti to s rcv h t Hsteps) as (r0 & Hr0 & _).
    congruence.
  - destruct (process_transaction w self tx) as [r|] eqn:Hr; [|done].
    destruct (process_transaction_inv w self tx r Hr)
      as (ti & to & s & rcv & h & t & Hsteps).
    destruct (steps_track w self tx ti to s rcv h t Hsteps) as (r0 & Hr0 & _).
    congruence.
Qed.

Lemma track_block_cons (w : World) (self : BitcoinWhaleTracker)
    (st : gmap key stats) (tx : json) (rest : list json) :
  track_block w self st (tx :: rest)
  = match track_whale_tx w self tx with
    | Raise e => (st, [], Some e)
    | Ok None => track_block w self st rest
    | Ok (Some whale) =>
        let step := update_stats st (sender whale) (receiver whale)
                      (tx_volume tx) (timestamp whale) in
        match step.2 with
        | Some e => (step.1, [whale], Some e)
        | None =>
            ((track_block w self step.1 rest).1.1,
             whale :: (track_block w self step.1 rest).1.2,
             (track_block w self step.1 rest).2)
        end
    end.
Proof.
  cbn [track_block].
  destruct (track_whale_tx w self tx) as [[whale|]|]; [|done..].
  destruct (update_stats _ _ _ _ _) as [st1 [e|]]; [done|].
  cbn [fst snd]. by destruct (track_block w self st1 rest) as [[? ?] ?].
Qed.

(** X7. The loop of [track_whale_transactions] over a block prints, in block
    order, one record for each transaction [process_transaction] gives a
    record for, with the same hash, time, sender and receiver, up to the
    point where it raises; the transactions after that point are not looked
    at. It raises either while a record is built, and that transaction gets
    no record, or in the statistics update of a whale whose record was
    printed. When nothing raises, the whole block is covered. *)
Theorem loop_follows_process_transaction (w : World)
    (self : BitcoinWhaleTracker) (txs : list json) :
  ∀ st : gmap key stats,
    ∃ pre rest,
      txs = (pre ++ rest)%list
      ∧ Forall2 same_parties (omap (process_transaction w self) pre)
          (track_block w self st txs).1.2
      ∧ match (track_block w self st txs).2 with
        | None => rest = []
        | Some e =>
            (∃ bad post, rest = bad :: post
                         ∧ track_whale_tx w self bad = Raise e
                         ∧ process_transaction w self bad = None)
            ∨ (∃ seen last r st',
                 pre = (seen ++ [last])%list
                 ∧ track_whale_tx w self last = Ok (Some r)
                 ∧ (update_stats st' (sender r) (receiver r)
                      (tx_volume last) (timestamp r)).2 = Some e)
        end.
Proof.
  induction txs as [|tx txs IH]; intros st.
  - exists [], []. repeat split. constructor.
  - rewrite track_block_cons.
    pose proof (track_vs_process w self tx) as Htx.
    destruct (track_whale_tx w self tx) as [[r'|]|e] eqn:Hr'.
    + destruct Htx as (r & Hr & Hsame). cbn zeta.
      destruct (update_stats st (sender r') (receiver r') (tx_volume tx)
                  (timestamp r')) as [st1 [e|]] eqn:Hstep; cbn [fst snd].
      * exists [tx], txs. split; [done|]. split.
        -- cbn [omap list_omap]. rewrite Hr.
           constructor; [done | constructor].
        -- right. exists [], tx, r', st. split; [done|]. split; [done|].
           by rewrite Hstep.
      * destruct (IH st1) as (pre & rest & -> & Hall & Hend).
        exists (tx :: pre), rest. split; [done|]. split.
        -- cbn [omap list_omap]. rewrite Hr. by constructor.
        -- destruct (track_block w self st1 (pre ++ rest)).2 as [e|]; [|done].
           destruct Hend as [Hbad|(seen & last & r0 & st' & -> & Hlast & Hup)];
             [by left|].
           right. by exists (tx :: seen), last, r0, st'.
    + destruct (IH st) as (pre & rest & -> & Hall & Hend).
      exists (tx :: pre), rest. split; [done|]. split.
      * cbn [omap list_omap]. by rewrite Htx.
      * destruct (track_block w self st (pre ++ rest)).2 as [e|]; [|done].
        destruct Hend as [Hbad|(seen & last & r0 & st' & -> & Hlast & Hup)];
          [by left|].
        right. by exists (tx :: seen), last, r0, st'.
    + cbn [fst snd]. exists [], (tx :: txs). split; [done|].
      split; [constructor|]. left. by exists tx, txs.
Qed.

(** ** Entity names and labels *)

Lemma known_names (self : BitcoinWhaleTracker) :
  (known_addresses self).*1
  = [ "binance"; "coinbase"; "grayscale"; "microstrategy"; "blockfi";
      "celsius"; "kraken"; "bitfinex"; "huobi"; "okex"; "gemini"; "bitstamp";
      "bittrex"; "kucoin"; "gate_io"; "ftx"; "bybit"; "cryptocom"; "doj" ].
Proof. reflexivity. Qed.

Lemma upper_known_name (self : BitcoinWhaleTracker) (name : string)
    (e : entity) :
  (name, e) ∈ known_addresses self → upper name ≠ "UNKNOWN".
Proof.
  intros Hin.
  assert (name ∈ (known_addresses self).*1) as Hname.
  { apply list_elem_of_fmap. by exists (name, e). }
  rewrite known_names in Hname.
  repeat (apply elem_of_cons in Hname as [->|Hname]; [by vm_compute|]).
  by apply elem_of_nil in Hname.
Qed.

Lemma find_entity_Some (self : BitcoinWhaleTracker) (a name : string)
    (e : entity) :
  find_entity self a = Some (name, e) →
  ∃ i : nat,
    known_addresses self !! i = Some (name, e)
    ∧ a ∈ eaddresses e
    ∧ ∀ (j : nat) name' e',
        known_addresses self !! j = Some (name', e') → (j < i)%nat →
        a ∉ eaddresses e'.
Proof.
  unfold find_entity. intros Hfind.
  destruct (list_find _ _) as [[i [name0 e0]]|] eqn:Hlist; [|done].
  injection Hfind as -> ->.
  apply list_find_Some in Hlist as (Hi & Ha & Hbefore).
  exists i. split; [done|]. split; [done|].
  intros j name' e' Hj Hlt. by apply (Hbefore j (name', e')).
Qed.

Lemma find_entity_None (self : BitcoinWhaleTracker) (a : string) :
  find_entity self a = None ↔
  ∀ name e, (name, e) ∈ known_addresses self → a ∉ eaddresses e.
Proof.
  unfold find_entity. rewrite fmap_None, list_find_None, Forall_forall.
  split.
  - intros Hall name e Hin. by apply (Hall (name, e)).
  - intros Hall [name e] Hin. exact (Hall name e Hin).
Qed.

Lemma get_entity_name_unknown (self : BitcoinWhaleTracker) (a : string) :
  get_entity_name self a = "UNKNOWN" ↔ find_entity self a = None.
Proof.
  unfold get_entity_name.
  destruct (find_entity self a) as [[name e]|] eqn:Hfind; [|done].
  apply find_entity_Some in Hfind as (i & Hi & _).
  split; [|done]. intros Hname. exfalso.
  apply (upper_known_name self name e); [|done].
  by eapply list_elem_of_lookup_2.
Qed.

Lemma get_entity_name_at (self : BitcoinWhaleTracker) (a : string) (i : nat)
    (name : string) (e : entity) :
  known_addresses self !! i = Some (name, e) →
  a ∈ eaddresses e →
  (∀ (j : nat) name' e',
     known_addresses self !! j = Some (name', e') → (j < i)%nat →
     a ∉ eaddresses e') →
  get_entity_name self a = upper name.
Proof.
  intros Hi Ha Hbefore. unfold get_entity_name, find_entity.
  assert (list_find (λ e0 : string * entity, a ∈ eaddresses e0.2)
            (known_addresses self) = Some (i, (name, e))) as ->.
  { apply list_find_Some. split; [done|]. split; [done|].
    intros j [name' e'] Hj Hlt. by apply (Hbefore j name' e'). }
  done.
Qed.

(** X8. [get_entity_name] answers "UNKNOWN" exactly for the addresses no
    entity of the registry lists. For any other address it answers the name,
    in upper case, of the first entity that lists it, in the order of the
    registry; an address several exchanges share is named after the first. *)
Theorem get_entity_name_first_listed (self : BitcoinWhaleTracker) (a : string) :
  (get_entity_name self a = "UNKNOWN" ↔
   ∀ name e, (name, e) ∈ known_addresses self → a ∉ eaddresses e)
  ∧ (∀ (i : nat) name e,
       known_addresses self !! i = Some (name, e) →
       a ∈ eaddresses e →
       (∀ (j : nat) name' e',
          known_addresses self !! j = Some (name', e') → (j < i)%nat →
          a ∉ eaddresses e') →
       get_entity_name self a = upper name).
Proof.
  split.
  - by rewrite get_entity_name_unknown, find_entity_None.
  - apply get_entity_name_at.
Qed.

Lemma get_entity_name_first_listed_witness :
  get_entity_name Sample.tracker Sample.kraken_hot = upper "kraken".
Proof.
  apply (get_entity_name_first_listed Sample.tracker Sample.kraken_hot) with
    6%nat {| etype := "exchange";
             eaddresses := [ "3FupZp77ySr7jwoLYEJ9mwzJpvoNBXsBnE";
                             "3H5JTt42K7RmZtromfTSefcMEFMMe18pMD";
                             "3AfP9N7KNq2pYXiGQdgNJy8SD2Mo7pQKUR";
                             "3E1jkR1PJ8hFUqCkDjimwPoF2bZVrkqnpv" ] |}.
  - reflexivity.
  - left.
  - intros j name' e' Hj Hlt.
    do 6 (destruct j as [|j]; [injection Hj as <- <-; compute_done|]). lia.
Defined.

Example shared_address_is_kraken :
  get_entity_name Sample.tracker Sample.kraken_hot = "KRAKEN"
  ∧ Sample.kraken_hot ∈ known Sample.tracker "okex"
  ∧ Sample.kraken_hot ∈ known Sample.tracker "gate_io".
Proof.
  split; [vm_compute; reflexivity|].
  split; vm_compute; repeat constructor.
Qed.

Lemma binance_or_coinbase_name (self : BitcoinWhaleTracker) (v : json) :
  binance_or_coinbase self v →
  entity_name_of self v = "BINANCE" ∨ entity_name_of self v = "COINBASE".
Proof.
  intros (a & -> & Hin). simpl.
  destruct (decide (a ∈ known self "binance")) as [Hb|Hnb].
  - left.
    by rewrite (get_entity_name_at self a 0%nat "binance" _ eq_refl Hb)
      by (intros; lia).
  - right. destruct Hin as [?|Hc]; [done|].
    rewrite (get_entity_name_at self a 1%nat "coinbase" _ eq_refl Hc); [done|].
    intros [|j] name' e' Hj Hlt; [|lia]. by injection Hj as <- <-.
Qed.

(** X9. The alert names the exchange its type is about: in a record of the
    loop whose type is WITHDRAWAL, [get_entity_name] of the sender is BINANCE
    or COINBASE, and in a record whose type is DEPOSIT, so is that of the
    receiver. *)
Theorem alert_names_the_exchange (w : World) (self : BitcoinWhaleTracker)
    (tx : json) (r : whale_tx) :
  track_whale_tx w self tx = Ok (Some r) →
  (tx_type r = "WITHDRAWAL" →
   entity_name_of self (sender r) = "BINANCE"
   ∨ entity_name_of self (sender r) = "COINBASE")
  ∧ (tx_type r = "DEPOSIT" →
     entity_name_of self (receiver r) = "BINANCE"
     ∨ entity_name_of self (receiver r) = "COINBASE").
Proof.
  intros Hr.
  destruct (track_whale_tx_inv w self tx r Hr)
    as (ti & to & s & rcv & h & t & Hsteps).
  destruct (steps_track w self tx ti to s rcv h t Hsteps)
    as (r0 & Hr0 & _ & _ & _ & _ & Hs & Hrcv & Htype).
  assert (r0 = r) as -> by congruence.
  destruct (chain_first_match self s rcv) as (t0 & Hmatch & Hloop & _).
  rewrite Hs, Hrcv, Htype, Hloop. split.
  - intros Hlabel. apply binance_or_coinbase_name.
    by destruct t0.
  - intros Hlabel. apply binance_or_coinbase_name.
    destruct t0; try done. apply Hmatch.
Qed.

Lemma alert_names_the_exchange_witness :
  entity_name_of Sample.tracker (JStr Sample.binance_hot) = "BINANCE"
  ∨ entity_name_of Sample.tracker (JStr Sample.binance_hot) = "COINBASE".
Proof.
  apply (alert_names_the_exchange (Sample.world [] true) Sample.tracker
           (Sample.transfer Sample.binance_hot Sample.seized
              60000000000 59990000000)
           {| transaction_hash := JStr "a1b2c3";
              timestamp := "2023-11-14 22:13:20";
              btc_volume := PyStr "600.00000000";
              fee_btc := PyStr "0.10000000";
              sender := JStr Sample.binance_hot;
              receiver := JStr Sample.seized;
              tx_type := "WITHDRAWAL" |}).
  - vm_compute. reflexivity.
  - reflexivity.
Defined.

(** X10. The two ways of naming an address agree on which addresses are
    known: [get_address_label] is the empty string exactly when
    [get_entity_name] is "UNKNOWN". *)
Theorem label_empty_iff_unknown (self : BitcoinWhaleTracker) (a : string) :
  get_address_label self a = "" ↔ get_entity_name self a = "UNKNOWN".
Proof.
  rewrite get_entity_name_unknown. unfold get_address_label.
  case_bool_decide as Hdoj.
  - split; [done|]. intros Hnone. exfalso.
    rewrite known_doj in Hdoj.
    apply (proj1 (find_entity_None self a) Hnone "doj"
             {| etype := "government"; eaddresses := doj_addresses self |});
      [|done].
    apply (list_elem_of_lookup_2 _ 18%nat). reflexivity.
  - destruct (find_entity self a) as [[name e]|]; [|done].
    split; done.
Qed.

(** ** The history and the bucket over the cycles *)

Lemma record_all_keys (l : list addr_info) : ∀ (h : history) (a : string),
  is_Some (addresses (foldl record_if_absent h l) !! a)
  ↔ is_Some (addresses h !! a) ∨ a ∈ address <$> l.
Proof.
  induction l as [|info l IH]; intros h a.
  - simpl. rewrite elem_of_nil. tauto.
  - cbn [foldl]. rewrite IH, record_if_absent_lookup, fmap_cons, elem_of_cons.
    destruct (addresses h !! a) as [old|].
    + split; [by left | by left; eexists].
    + case_decide as Heq.
      * split; [right; by left | by left; eexists].
      * split.
        -- intros [[? [=]]|?]. by right; right.
        -- intros [[? [=]]|[?|?]]; [done | by right].
Qed.

(** X11. After a cycle the keys of the history are the keys it had and the
    addresses the cycle found, whether or not the history could be saved:
    every address a cycle returns has a record. *)
Theorem history_keys_after_cycle (w : World) (self : BitcoinWhaleTracker)
    (a : string) :
  is_Some (recorded (monitor_loop w self) !! a)
  ↔ is_Some (recorded self !! a) ∨ a ∈ address <$> found_in_cycle w.
Proof. rewrite monitor_loop_recorded. apply record_all_keys. Qed.

Lemma monitor_loop_bucket_recorded (w : World) (self : BitcoinWhaleTracker) :
  (∀ a, a ∈ doj_addresses self → is_Some (recorded self !! a)) →
  ∀ a, a ∈ doj_addresses (monitor_loop w self) →
       is_Some (recorded (monitor_loop w self) !! a).
Proof.
  intros Hinv a Ha. rewrite monitor_loop_recorded, record_all_keys.
  apply monitor_loop_doj in Ha as [Ha|[_ Ha]]; [left; by apply Hinv | by right].
Qed.

Lemma monitor_loops_bucket_recorded (ws : list World) :
  ∀ self : BitcoinWhaleTracker,
    (∀ a, a ∈ doj_addresses self → is_Some (recorded self !! a)) →
    ∀ a, a ∈ doj_addresses (monitor_loops ws self) →
         is_Some (recorded (monitor_loops ws self) !! a).
Proof.
  induction ws as [|w ws IH]; intros self Hinv; [done|].
  simpl. apply IH. by apply monitor_loop_bucket_recorded.
Qed.

(** X12. In a tracker that was started and has run any number of monitor
    cycles, every address of the government bucket has a record in the
    history, and its label shows the case number of that record, or UNKNOWN
    when the record has none: the default of the lookup is never used. *)
Theorem doj_label_shows_recorded_case (ws : list World) (min : Q) (h : history)
    (a : string) :
  a ∈ doj_addresses (monitor_loops ws (init min h)) →
  ∃ info,
    recorded (monitor_loops ws (init min h)) !! a = Some info
    ∧ get_address_label (monitor_loops ws (init min h)) a
      = "(DOJ - Case " +:+ default "UNKNOWN" (case_number (case info)) +:+ ")".
Proof.
  intros Ha.
  destruct (monitor_loops_bucket_recorded ws (init min h)) with a
    as [info Hinfo]; [|done|].
  { intros a' []%elem_of_nil. }
  exists info. split; [done|]. unfold get_address_label.
  rewrite known_doj, bool_decide_eq_true_2 by done.
  unfold recorded in Hinfo. by rewrite Hinfo.
Qed.

Lemma doj_label_shows_recorded_case_witness :
  ∃ info,
    recorded (monitor_loops [Sample.world [Sample.press_release] true]
                (init 500 empty_history)) !! Sample.seized = Some info
    ∧ get_address_label
        (monitor_loops [Sample.world [Sample.press_release] true]
           (init 500 empty_history)) Sample.seized
      = "(DOJ - Case " +:+ default "UNKNOWN" (case_number (case info)) +:+ ")".
Proof.
  apply (doj_label_shows_recorded_case
           [Sample.world [Sample.press_release] true] 500 empty_history
           Sample.seized).
  replace (doj_addresses _) with [Sample.seized] by (vm_compute; reflexivity).
  left.
Defined.

Example doj_label_ex :
  get_address_label Sample.tracker_after_scan Sample.seized
  = "(DOJ - Case 21-cr-399)"
  ∧ get_address_label Sample.tracker_after_scan Sample.kraken_hot
    = "(KRAKEN exchange)"
  ∧ get_address_label Sample.tracker_after_scan "1abc" = "".
Proof. repeat split; vm_compute; reflexivity. Qed.

Lemma monitor_loops_doj_kept (ws : list World) :
  ∀ (self : BitcoinWhaleTracker) a,
    a ∈ doj_addresses self → a ∈ doj_addresses (monitor_loops ws self).
Proof.
  induction ws as [|w ws IH]; intros self a Ha; [done|].
  simpl. apply IH, monitor_loop_doj. by left.
Qed.

(** X13. The government bucket only grows: an address that is in it stays
    in it through any number of cycles. And after a cycle that completed the
    bucket lists no address twice, whatever it held before. *)
Theorem doj_bucket_grows (ws : list World) (w : World)
    (self : BitcoinWhaleTracker) :
  (∀ a, a ∈ doj_addresses self → a ∈ doj_addresses (monitor_loops ws self))
  ∧ (disk_writable w = true → NoDup (doj_addresses (monitor_loop w self))).
Proof.
  split; [apply monitor_loops_doj_kept|].
  intros Hw. unfold monitor_loop. rewrite update_addresses_eq, Hw.
  cbn [doj_addresses]. apply NoDup_elements.
Qed.

Lemma doj_bucket_grows_witness :
  Sample.seized
  ∈ doj_addresses
      (monitor_loops [Sample.world [] true; Sample.world [] false]
         Sample.tracker_after_scan)
  ∧ NoDup (doj_addresses
             (monitor_loop
                (Sample.world [Sample.press_release; Sample.press_release] true)
                Sample.tracker)).
Proof.
  split.
  - apply (doj_bucket_grows [Sample.world [] true; Sample.world [] false]
             (Sample.world [] true) Sample.tracker_after_scan).
    replace (doj_addresses _) with [Sample.seized]
      by (vm_compute; reflexivity).
    left.
  - apply (doj_bucket_grows []
             (Sample.world [Sample.press_release; Sample.press_release] true)
             Sample.tracker).
    reflexivity.
Defined.

(** X14. An address enters the government bucket only through a scan that
    verified it: an address that is in the bucket after a cycle and was not
    before passed the validity check, was found by the address pattern in a
    text block of a monitored page, and that block gave case information. *)
Theorem new_bucket_address_is_verified (w : World)
    (self : BitcoinWhaleTracker) (a : string) :
  a ∈ doj_addresses (monitor_loop w self) →
  a ∉ doj_addresses self →
  verify_bitcoin_address w a = true
  ∧ ∃ src blocks text ci,
      src ∈ sources
      ∧ page_blocks w src.2.1 = Some blocks
      ∧ text ∈ blocks
      ∧ a ∈ re_findall w src.2.2 text
      ∧ extract_case_info w text = Some ci.
Proof.
  intros Hin Hnew.
  apply monitor_loop_doj in Hin as [?|[_ Hfound]]; [done|].
  apply list_elem_of_fmap in Hfound as (info & -> & Hinfo).
  apply found_in_cycle_elem in Hinfo as (src & Hsrc & Hinfo).
  apply scan_doj_page_elem in Hinfo as (blocks & text & Hpage & Htext & Hinfo).
  apply scan_block_elem in Hinfo as (ci & Hci & Hfind & Hverify & _).
  split; [done|]. by exists src, blocks, text, ci.
Qed.

Lemma new_bucket_address_is_verified_witness :
  verify_bitcoin_address (Sample.world [Sample.press_release] true)
    Sample.seized = true
  ∧ ∃ src blocks text ci,
      src ∈ sources
      ∧ page_blocks (Sample.world [Sample.press_release] true) src.2.1
        = Some blocks
      ∧ text ∈ blocks
      ∧ Sample.seized
        ∈ re_findall (Sample.world [Sample.press_release] true) src.2.2 text
      ∧ extract_case_info (Sample.world [Sample.press_release] true) text
        = Some ci.
Proof.
  apply (new_bucket_address_is_verified
           (Sample.world [Sample.press_release] true) Sample.tracker
           Sample.seized).
  - replace (doj_addresses _) with [Sample.seized] by (vm_compute; reflexivity).
    left.
  - apply not_elem_of_nil.
Defined.

Lemma record_if_absent_same_keys (h : history) (info : addr_info) :
  is_Some (addresses h !! address info) → record_if_absent h info = h.
Proof. intros [old Hold]. unfold record_if_absent. by rewrite Hold. Qed.

(** X15. A cycle in which no monitored page can be fetched finds nothing:
    the records of the history and the members of the bucket are what they
    were, and the cycle still stamps the history with the time of the
    update. *)
Theorem cycle_without_pages (w : World) (self : BitcoinWhaleTracker) :
  (∀ src, src ∈ sources → page_blocks w src.2.1 = None) →
  found_in_cycle w = []
  ∧ recorded (monitor_loop w self) = recorded self
  ∧ last_update (address_history (doj_monitor (monitor_loop w self)))
    = Some (now_iso w)
  ∧ ∀ a, a ∈ doj_addresses (monitor_loop w self) ↔ a ∈ doj_addresses self.
Proof.
  intros Hfail.
  assert (found_in_cycle w = []) as Hnone.
  { apply elem_of_nil_inv. intros info (src & Hsrc & Hinfo)%found_in_cycle_elem.
    apply scan_doj_page_elem in Hinfo as (blocks & text & Hpage & _).
    by rewrite (Hfail src Hsrc) in Hpage. }
  split; [done|]. split; [|split].
  - by rewrite monitor_loop_recorded, Hnone.
  - unfold monitor_loop. by rewrite update_addresses_eq.
  - intros a. rewrite monitor_loop_doj, Hnone, fmap_nil, elem_of_nil.
    naive_solver.
Qed.

Lemma cycle_without_pages_witness :
  let w := {| strftime_local := Sample.strftime_utc;
              now_iso := "2024-06-01T00:00:00";
              page_blocks := λ _, None;
              http_status := λ _, None;
              re_findall := λ _ _, [];
              re_search_group1 := λ _ _, None;
              disk_writable := true |} in
  found_in_cycle w = []
  ∧ recorded (monitor_loop w Sample.tracker_after_scan)
    = recorded Sample.tracker_after_scan
  ∧ last_update (address_history
                   (doj_monitor (monitor_loop w Sample.tracker_after_scan)))
    = Some (now_iso w)
  ∧ ∀ a, a ∈ doj_addresses (monitor_loop w Sample.tracker_after_scan)
         ↔ a ∈ doj_addresses Sample.tracker_after_scan.
Proof.
  intros w. apply (cycle_without_pages w Sample.tracker_after_scan).
  intros src _. reflexivity.
Defined.

(** X16. Within one cycle the first record found for an address is the one
    that is kept: for an address that is not yet a key, the history gets the
    record of its first occurrence in the order of the scan (the forfeiture
    page before the press releases, and each page from top to bottom). *)
Theorem first_occurrence_is_recorded (w : World) (self : BitcoinWhaleTracker)
    (before after : list addr_info) (info : addr_info) :
  found_in_cycle w = (before ++ info :: after)%list →
  recorded self !! address info = None →
  address info ∉ address <$> before →
  recorded (monitor_loop w self) !! address info = Some info.
Proof.
  intros Hfound Hnew Hfirst.
  rewrite monitor_loop_recorded, Hfound, foldl_app. cbn [foldl].
  apply record_all_kept.
  rewrite record_if_absent_lookup, record_all_frame by done.
  unfold recorded in Hnew. rewrite Hnew. by case_decide.
Qed.

Lemma first_occurrence_is_recorded_witness :
  let info := {| address := Sample.seized;
                 source_url := Sample.forfeiture_url;
                 discovery_date := "2024-05-01T12:00:00";
                 case := {| case_number := Some "21-cr-399";
                            filing_date := None;
                            district := None; amount := None |} |} in
  recorded (monitor_loop
              (Sample.world [Sample.press_release; Sample.press_release] true)
              Sample.tracker) !! address info
  = Some info.
Proof.
  intros info.
  apply (first_occurrence_is_recorded
           (Sample.world [Sample.press_release; Sample.press_release] true)
           Sample.tracker [] [info] info).
  - vm_compute. reflexivity.
  - reflexivity.
  - apply not_elem_of_nil.
Defined.

(** X17. When the history file cannot be written, the cycle ends with the
    exception: the bucket is left exactly as it was, while the history in
    memory already has a record for every address found. A later cycle that
    completes and finds an address again merges it into the bucket although
    it is no longer new to the history. *)
Theorem failed_save_then_retry (w : World) (self : BitcoinWhaleTracker) :
  disk_writable w = false →
  doj_addresses (monitor_loop w self) = doj_addresses self
  ∧ (∀ a, a ∈ address <$> found_in_cycle w →
          is_Some (recorded (monitor_loop w self) !! a))
  ∧ ∀ w' a, disk_writable w' = true →
            a ∈ address <$> found_in_cycle w' →
            a ∈ doj_addresses (monitor_loop w' (monitor_loop w self)).
Proof.
  intros Hw. split; [|split].
  - unfold monitor_loop. by rewrite update_addresses_eq, Hw.
  - intros a Ha. rewrite monitor_loop_recorded, record_all_keys. by right.
  - intros w' a Hw' Ha. apply monitor_loop_doj. by right.
Qed.

Lemma failed_save_then_retry_witness :
  let w := Sample.world [Sample.press_release] false in
  doj_addresses (monitor_loop w Sample.tracker) = doj_addresses Sample.tracker
  ∧ (∀ a, a ∈ address <$> found_in_cycle w →
          is_Some (recorded (monitor_loop w Sample.tracker) !! a))
  ∧ ∀ w' a, disk_writable w' = true →
            a ∈ address <$> found_in_cycle w' →
            a ∈ doj_addresses (monitor_loop w' (monitor_loop w Sample.tracker)).
Proof.
  intros w. apply (failed_save_then_retry w Sample.tracker). reflexivity.
Defined.

(** ** Address statistics *)

Lemma count_all_insert (f : stats → Z) (st : gmap key stats) (k : key)
    (s : stats) :
  count_all f (<[k := s]> st)
  = count_all f st - match st !! k with Some old => f old | None => 0 end + f s.
Proof.
  unfold count_all.
  assert (∀ (m : gmap key stats) x, m !! k = None →
            map_fold (λ _ s0 acc, f s0 + acc) 0 (<[k := x]> m)
            = f x + map_fold (λ _ s0 acc, f s0 + acc) 0 m) as Hfresh.
  { intros m x Hm. apply (map_fold_insert_L (λ _ s0 acc, f s0 + acc));
      [intros; lia | done]. }
  destruct (st !! k) as [old|] eqn:Hk.
  - rewrite <- (insert_delete_eq st k s).
    rewrite <- (insert_delete_id st k old Hk) at 2.
    rewrite !Hfresh by apply lookup_delete_eq. lia.
  - rewrite Hfresh by done. lia.
Qed.

Lemma count_sent_record_sent (st : gmap key stats) (k : key) (v : Q)
    (time : string) :
  count_all sent_count (record_sent st k v time) = count_all sent_count st + 1
  ∧ count_all received_count (record_sent st k v time)
    = count_all received_count st.
Proof.
  unfold record_sent. rewrite !count_all_insert.
  destruct (st !! k); simpl; lia.
Qed.

Lemma count_received_record_received (st : gmap key stats) (k : key) (v : Q)
    (time : string) :
  count_all received_count (record_received st k v time)
  = count_all received_count st + 1
  ∧ count_all sent_count (record_received st k v time)
    = count_all sent_count st.
Proof.
  unfold record_received. rewrite !count_all_insert.
  destruct (st !! k); simpl; lia.
Qed.

Lemma update_stats_counts (st : gmap key stats) (s rcv : json) (v : Q)
    (time : string) :
  match (update_stats st s rcv v time).2 with
  | None =>
      count_all sent_count (update_stats st s rcv v time).1
      = count_all sent_count st + 1
      ∧ count_all received_count (update_stats st s rcv v time).1
        = count_all received_count st + 1
  | Some _ =>
      count_all received_count (update_stats st s rcv v time).1
      = count_all received_count st
      ∧ count_all sent_count st
        ≤ count_all sent_count (update_stats st s rcv v time).1
        ≤ count_all sent_count st + 1
  end.
Proof.
  unfold update_stats.
  destruct (py_hash s) as [ks|e]; [|simpl; lia].
  destruct (count_sent_record_sent st ks v time) as [Hs Hr].
  destruct (py_hash rcv) as [kr|e]; simpl.
  - destruct (count_received_record_received (record_sent st ks v time) kr v
                time) as [Hr' Hs'].
    lia.
  - lia.
Qed.

(** X18. The statistics count every alert once on each side. Over the
    transactions of a block, the sum of [sent_count] over all addresses grows
    by at most the number of records printed and the sum of [received_count]
    by no more than that of [sent_count]; when the loop ends without an
    exception both grow by exactly the number of records printed. *)
Theorem stats_count_the_alerts (w : World) (self : BitcoinWhaleTracker)
    (txs : list json) :
  ∀ st : gmap key stats,
    let after := (track_block w self st txs).1.1 in
    let printed := (track_block w self st txs).1.2 in
    count_all received_count after - count_all received_count st
    ≤ count_all sent_count after - count_all sent_count st
    ≤ Z.of_nat (length printed)
    ∧ ((track_block w self st txs).2 = None →
       count_all sent_count after
       = count_all sent_count st + Z.of_nat (length printed)
       ∧ count_all received_count after
         = count_all received_count st + Z.of_nat (length printed)).
Proof.
  induction txs as [|tx txs IH]; intros st.
  - simpl. split; [lia|]. intros _. lia.
  - cbn zeta. rewrite track_block_cons.
    destruct (track_whale_tx w self tx) as [[whale|]|e].
    + pose proof (update_stats_counts st (sender whale) (receiver whale)
                    (tx_volume tx) (timestamp whale)) as Hstep.
      destruct (update_stats _ _ _ _ _) as [st1 [e|]]; cbn [fst snd] in *.
      * split; [simpl; lia | done].
      * specialize (IH st1). cbn zeta in IH. destruct IH as [IHle IHeq].
        split.
        -- cbn [length]. lia.
        -- intros Hnone. destruct (IHeq Hnone). cbn [length]. lia.
    + apply IH.
    + simpl. split; [lia | done].
Qed.

Example stats_of_one_block :
  let block := [ Sample.transfer Sample.binance_hot Sample.seized
                   60000000000 59990000000;
                 Sample.transfer "1abc" "1def" 100 90;
                 Sample.transfer Sample.seized Sample.seized
                   70000000000 69990000000 ] in
  let after := (track_block (Sample.world [] true) Sample.tracker ∅ block).1.1 in
  sent_count <$> after !! KStr Sample.binance_hot = Some 1
  ∧ received_count <$> after !! KStr Sample.seized = Some 2
  ∧ sent_count <$> after !! KStr Sample.seized = Some 1
  ∧ after !! KStr "1abc" = None
  ∧ count_all sent_count after = 2
  ∧ count_all received_count after = 2.
Proof. repeat split; vm_compute; reflexivity. Qed.

(** The sender of a transaction is counted even when the receiver cannot be
    a key: the loop stops between the two updates. *)
Example unhashable_receiver :
  let tx := Sample.obj
    [ ("inputs", JList [ Sample.obj [ ("prev_out",
         Sample.obj [ ("addr", JStr "1abc"); ("value", JInt 60000000000) ]) ] ]);
      ("out", JList [ Sample.obj [ ("addr", JList [JStr "1def"; JStr "1ghi"]);
                                   ("value", JInt 59990000000) ] ]) ] in
  let r := track_block (Sample.world [] true) Sample.tracker ∅
             [tx; Sample.transfer "1abc" "1def" 60000000000 59990000000] in
  r.2 = Some TypeError
  ∧ length r.1.2 = 1%nat
  ∧ sent_count <$> r.1.1 !! KStr "1abc" = Some 1
  ∧ count_all received_count r.1.1 = 0.
Proof. repeat split; vm_compute; reflexivity. Qed.

Lemma stats_count_the_alerts_witness :
  let block := [ Sample.transfer Sample.binance_hot Sample.seized
                   60000000000 59990000000;
                 Sample.transfer "1abc" "1def" 100 90;
                 Sample.transfer Sample.seized Sample.seized
                   70000000000 69990000000 ] in
  let after := (track_block (Sample.world [] true) Sample.tracker ∅ block).1.1 in
  let printed := (track_block (Sample.world [] true) Sample.tracker ∅ block).1.2 in
  count_all sent_count after
  = count_all sent_count ∅ + Z.of_nat (length printed)
  ∧ count_all received_count after
    = count_all received_count ∅ + Z.of_nat (length printed).
Proof.
  intros block after printed.
  apply (stats_count_the_alerts (Sample.world [] true) Sample.tracker block ∅).
  vm_compute. reflexivity.
Defined.

(** X19. What one alert does to the statistics, when sender and receiver can
    be keys: the sender's [sent_count] and the receiver's [received_count]
    rise by one, the float of the volume is added to the sender's
    [total_sent] and to the receiver's [total_received] by one float
    addition each, both are last seen at the time of the transaction, and no
    other address is touched. A transfer of an address to itself raises both
    counters of the one entry. *)
Theorem update_stats_entries (st : gmap key stats) (s rcv : json)
    (ks kr : key) (v : Q) (time : string) :
  py_hash s = Ok ks →
  py_hash rcv = Ok kr →
  let after := (update_stats st s rcv v time).1 in
  let old k := default fresh_stats (st !! k) in
  let new k := default fresh_stats (after !! k) in
  (update_stats st s rcv v time).2 = None
  ∧ sent_count (new ks) = sent_count (old ks) + 1
  ∧ received_count (new kr) = received_count (old kr) + 1
  ∧ total_sent (new ks) = add_float (total_sent (old ks)) (to_float v)
  ∧ total_received (new kr) = add_float (total_received (old kr)) (to_float v)
  ∧ last_seen (new ks) = Some time
  ∧ last_seen (new kr) = Some time
  ∧ (ks ≠ kr →
     received_count (new ks) = received_count (old ks)
     ∧ total_received (new ks) = total_received (old ks)
     ∧ sent_count (new kr) = sent_count (old kr)
     ∧ total_sent (new kr) = total_sent (old kr))
  ∧ ∀ k, k ≠ ks → k ≠ kr → after !! k = st !! k.
Proof.
  intros Hs Hrcv after old new. subst after old new.
  unfold update_stats. rewrite Hs, Hrcv. cbn [fst snd].
  unfold record_received, record_sent.
  destruct (decide (ks = kr)) as [->|Hne].
  - rewrite !lookup_insert_eq. cbn.
    repeat split; try reflexivity; try done.
    intros k Hk _. by rewrite !lookup_insert_ne.
  - rewrite (lookup_insert_ne _ ks kr) by done.
    rewrite lookup_insert_eq.
    rewrite (lookup_insert_ne _ kr ks) by done.
    rewrite lookup_insert_eq. cbn.
    repeat split; try reflexivity; try done.
    intros k Hks Hkr. by rewrite !lookup_insert_ne.
Qed.

Lemma update_stats_entries_witness :
  let v := true_div 10000000 satoshi_to_btc in
  let st : gmap key stats :=
    (update_stats ∅ (JStr "1abc") (JStr "1def")
       (true_div 20000000 satoshi_to_btc) "2023-11-14 22:13:20").1 in
  let after := (update_stats st (JStr "1abc") (JStr "1ghi") v
                  "2023-11-14 22:25:00").1 in
  let old k := default fresh_stats (st !! k) in
  let new k := default fresh_stats (after !! k) in
  (sent_count (new (KStr "1abc")) = sent_count (old (KStr "1abc")) + 1
   ∧ received_count (new (KStr "1ghi"))
     = received_count (old (KStr "1ghi")) + 1
   ∧ total_sent (new (KStr "1abc"))
     = add_float (total_sent (old (KStr "1abc"))) (to_float v)
   ∧ after !! KStr "1def" = st !! KStr "1def")
  ∧ total_sent (new (KStr "1abc"))
    = NFloat (to_float (30000000000000004 # 100000000000000000))
  ∧ total_sent (new (KStr "1abc")) ≠ NFloat (to_float (3 # 10)).
Proof.
  intros v st after old new. split.
  - destruct (update_stats_entries st (JStr "1abc") (JStr "1ghi")
                (KStr "1abc") (KStr "1ghi") v "2023-11-14 22:25:00"
                eq_refl eq_refl)
      as (_ & Hsent & Hreceived & Htotal & _ & _ & _ & _ & Hframe).
    split; [exact Hsent|]. split; [exact Hreceived|].
    split; [exact Htotal|]. by apply Hframe.
  - split; vm_compute; [reflexivity | discriminate].
Defined.

(** ** The Twitter bot *)

Example whale_message_ex :
  let self := Sample.tracker_after_scan in
  ∃ r, process_transaction (Sample.world [] true) self
         (Sample.transfer Sample.binance_hot Sample.seized
            123456789012 123456000000) = Some r
       ∧ whale_message self r (true_div 6543210 100)
         = Ok ("🚨 witdrawal" +:+ newline
               +:+ "1234.57 BTC ($80,780,369.64)" +:+ newline
               +:+ "From: BINANCE" +:+ newline +:+ "To: DOJ").
Proof. eexists. split; vm_compute; reflexivity. Qed.

Lemma process_record_message (w : World) (self : BitcoinWhaleTracker)
    (tx : json) (r : whale_tx) (btc_price : Q) :
  process_transaction w self tx = Some r →
  ∃ message, whale_message self r btc_price = Ok message.
Proof.
  intros Hr.
  destruct (process_transaction_inv w self tx r Hr)
    as (ti & to & s & rcv & h & t & Hsteps).
  destruct (steps_process w self tx ti to s rcv h t Hsteps)
    as (r0 & Hr0 & _ & _ & Hvol & _).
  assert (r0 = r) as -> by congruence.
  unfold whale_message. rewrite Hvol. eauto.
Qed.

Lemma first_whale_alert_spec (w : World) (self : BitcoinWhaleTracker)
    (btc_price : Q) (post_tweet : string → bool) (txs : list json) :
  match (first_whale_alert w self btc_price post_tweet txs).1 with
  | Some message =>
      ∃ pre tx post r,
        txs = (pre ++ tx :: post)%list
        ∧ Forall (λ t, process_transaction w self t = None) pre
        ∧ process_transaction w self tx = Some r
        ∧ whale_message self r btc_price = Ok message
        ∧ (first_whale_alert w self btc_price post_tweet txs).2
          = post_tweet message
  | None =>
      Forall (λ t, process_transaction w self t = None) txs
      ∧ (first_whale_alert w self btc_price post_tweet txs).2 = false
  end.
Proof.
  induction txs as [|tx txs IH]; [by split|].
  cbn [first_whale_alert].
  destruct (process_transaction w self tx) as [r|] eqn:Hr.
  - destruct (process_record_message w self tx r btc_price Hr)
      as [message Hmessage].
    rewrite Hmessage. cbn [fst snd].
    exists [], tx, txs, r. by repeat split.
  - destruct (first_whale_alert w self btc_price post_tweet txs).1
      as [message|].
    + destruct IH as (pre & tx' & post & r & -> & Hpre & Hr' & Hm & Hpost).
      exists (tx :: pre), tx', post, r. repeat split; [|done..].
      by constructor.
    + destruct IH as [Hall Hfalse]. split; [by constructor | done].
Qed.

(** X20. [check_whale_alert] tweets at most one alert per call, and it is
    about the first transaction of the block that [process_transaction]
    gives a record for: the transactions after it are not looked at, and the
    call returns what [post_tweet] returned. It tweets nothing and returns
    [False] exactly when the block is not new, its hash is empty, or no
    transaction of the block is a whale. *)
Theorem check_whale_alert_first_whale (w : World) (self : BitcoinWhaleTracker)
    (btc_price : Q) (post_tweet : string → bool)
    (block_data : option (Z * string)) (txs : list json) :
  let polled := get_latest_block self block_data in
  let alert := check_whale_alert w self btc_price post_tweet block_data txs in
  alert.1 = polled.1
  ∧ match alert.2.1 with
    | Some message =>
        ∃ hash pre tx post r,
          polled.2 = Some hash ∧ hash ≠ ""
          ∧ txs = (pre ++ tx :: post)%list
          ∧ Forall (λ t, process_transaction w polled.1 t = None) pre
          ∧ process_transaction w polled.1 tx = Some r
          ∧ whale_message polled.1 r btc_price = Ok message
          ∧ alert.2.2 = post_tweet message
    | None =>
        alert.2.2 = false
        ∧ (polled.2 = None ∨ polled.2 = Some ""
           ∨ Forall (λ t, process_transaction w polled.1 t = None) txs)
    end.
Proof.
  intros polled alert. subst polled alert. unfold check_whale_alert.
  destruct (get_latest_block self block_data) as [self1 [hash|]];
    cbn [fst snd]; [|by split; [|split; [|left]]].
  case_bool_decide as Hempty; cbn [fst snd].
  { subst hash. split; [done|]. split; [done|]. by right; left. }
  split; [done|].
  pose proof (first_whale_alert_spec w self1 btc_price post_tweet txs) as Hspec.
  destruct (first_whale_alert w self1 btc_price post_tweet txs).1
    as [message|].
  - destruct Hspec as (pre & tx & post & r & Htxs & Hpre & Hr & Hm & Hpost).
    by exists hash, pre, tx, post, r.
  - destruct Hspec as [Hall Hfalse]. split; [done|]. by right; right.
Qed.

Example only_the_first_whale_is_tweeted :
  let block := [ Sample.transfer "1abc" "1def" 100 90;
                 Sample.transfer Sample.binance_hot "1def"
                   60000000000 59990000000;
                 Sample.transfer Sample.kraken_hot Sample.binance_hot
                   90000000000 89990000000 ] in
  (check_whale_alert (Sample.world [] true) Sample.tracker
     (true_div 6543210 100) (λ _, true) (Some (840000, "00000000a1")) block).2
  = (Some ("🚨 witdrawal" +:+ newline
           +:+ "600.00 BTC ($39,259,260.00)" +:+ newline
           +:+ "From: BINANCE" +:+ newline +:+ "To: UNKNOWN"), true).
Proof. vm_compute. reflexivity. Qed.

Lemma get_latest_block_again (self : BitcoinWhaleTracker)
    (block_data : option (Z * string)) :
  (get_latest_block (get_latest_block self block_data).1 block_data).2 = None.
Proof.
  destruct block_data as [[height hash]|]; [|done].
  destruct (last_block_height self) as [base|] eqn:Hbase.
  - destruct (decide (hash ∈ processed_blocks self)) as [Hin|Hnew].
    { rewrite (get_latest_block_seen self base height hash) by done.
      cbn [fst]. by rewrite (get_latest_block_seen self base height hash). }
    destruct (decide (base < height)) as [Hlt|Hge].
    + destruct (get_latest_block_new self base height hash Hbase Hnew Hlt)
        as (_ & Hh & Hset & _).
      rewrite (get_latest_block_seen _ height height hash Hh); [done|].
      rewrite Hset. apply elem_of_union_r. by apply elem_of_singleton.
    + rewrite (get_latest_block_stale self base height hash) by (done || lia).
      cbn [fst].
      by rewrite (get_latest_block_stale self base height hash)
        by (done || lia).
  - destruct (get_latest_block_bootstrap self height hash Hbase)
      as (_ & Hh & _).
    by rewrite (get_latest_block_stale _ height height hash Hh) by lia.
Qed.

(** X21. No block is tweeted twice: when [check_whale_alert] is called again
    while the provider still answers with the same block, the second call
    tweets nothing and returns [False], whatever the first call did. The
    whales of a block that come after its first one are therefore never
    tweeted. *)
Theorem check_whale_alert_again (w : World) (self : BitcoinWhaleTracker)
    (btc_price : Q) (post_tweet : string → bool)
    (block_data : option (Z * string)) (txs txs' : list json) :
  (check_whale_alert w
     (check_whale_alert w self btc_price post_tweet block_data txs).1
     btc_price post_tweet block_data txs').2
  = (None, false).
Proof.
  assert ((check_whale_alert w self btc_price post_tweet block_data txs).1
          = (get_latest_block self block_data).1) as ->.
  { unfold check_whale_alert.
    destruct (get_latest_block self block_data) as [self1 [hash|]]; [|done].
    by case_bool_decide. }
  unfold check_whale_alert.
  pose proof (get_latest_block_again self block_data) as Hagain.
  destruct (get_latest_block (get_latest_block self block_data).1 block_data)
    as [self2 r].
  cbn [snd] in Hagain. by rewrite Hagain.
Qed.

(** The volume of the tweet is the float, not the quotient: 100.025 BTC is
    the float 100.02500000000000568..., which two decimals round up. *)
Example tweet_rounds_the_float :
  ∃ r, process_transaction (Sample.world [] true) (init 100 empty_history)
         (Sample.transfer "1abc" "1def" 10002500000 10002000000) = Some r
       ∧ whale_message (init 100 empty_history) r (true_div 6543210 100)
         = Ok ("🚨 alert #bitcoin" +:+ newline
               +:+ "100.03 BTC ($6,544,845.80)" +:+ newline
               +:+ "From: UNKNOWN" +:+ newline +:+ "To: UNKNOWN").
Proof. eexists. split; vm_compute; reflexivity. Qed.

(** ** The statistics do not steer the loop *)

Lemma update_stats_exception (st st' : gmap key stats) (s rcv : json) (v : Q)
    (time : string) :
  (update_stats st s rcv v time).2 = (update_stats st' s rcv v time).2.
Proof.
  unfold update_stats.
  destruct (py_hash s); [|done]. by destruct (py_hash rcv).
Qed.

(** The records printed and the exception are the same whatever the
    statistics held when the loop began. *)
Lemma track_block_any_stats (w : World) (self : BitcoinWhaleTracker)
    (txs : list json) :
  ∀ st st' : gmap key stats,
    (track_block w self st txs).1.2 = (track_block w self st' txs).1.2
    ∧ (track_block w self st txs).2 = (track_block w self st' txs).2.
Proof.
  induction txs as [|tx txs IH]; intros st st'; [done|].
  rewrite !track_block_cons.
  destruct (track_whale_tx w self tx) as [[r|]|e]; [|apply IH|done].
  cbn zeta.
  pose proof (update_stats_exception st st' (sender r) (receiver r)
                (tx_volume tx) (timestamp r)) as Hsame.
  destruct (update_stats st _ _ _ _) as [st1 e1].
  destruct (update_stats st' _ _ _ _) as [st1' e1'].
  cbn [fst snd] in *. subst e1'.
  destruct e1 as [e|]; [done|]. cbn [fst snd].
  destruct (IH st1 st1') as [-> ->]. done.
Qed.

Lemma track_whale_transactions_any_stats (w : World)
    (self : BitcoinWhaleTracker) (txs : list json) (st : gmap key stats) :
  track_whale_transactions w self txs
  = ((track_block w self st txs).1.2, (track_block w self st txs).2).
Proof.
  unfold track_whale_transactions.
  by destruct (track_block_any_stats w self txs ∅ st) as [-> ->].
Qed.
